(** * yt-dlp-mcp: the video download workflow

    A shallow embedding of [downloadVideo] (src/modules/video.ts) and of the
    helpers it calls ([validateUrl], [isYouTubeUrl], [_spawnPromise] of
    modules/utils), followed by the properties of the workflow.

    The workflow is sequential code over a file system and two child
    processes.  It is embedded as a state-and-exception monad over a store
    holding the directories, the number of processes spawned so far and the
    trace of the effects performed.  The platform's builtins ([new URL],
    [path.join], [JSON.parse], [String] on numbers) and the behaviour of the
    child processes are parameters of the development. *)

From stdpp Require Import base option list strings pretty gmap.

Local Open Scope Z_scope.

(** * JavaScript strings and arrays *)

Module Js.

(** [s.includes(sub)] *)
Fixpoint includes (s sub : string) : bool :=
  String.prefix sub s ||
  match s with
  | String _ s' => includes s' sub
  | EmptyString => false
  end.

(** [s.endsWith(suf)] *)
Fixpoint endsWith (s suf : string) : bool :=
  String.eqb s suf ||
  match s with
  | String _ s' => endsWith s' suf
  | EmptyString => false
  end.

(** [arr.join(sep)] on an array of strings *)
Definition join (sep : string) (arr : list string) : string :=
  String.concat sep arr.

(** [arr.splice(start, deleteCount, ...items)] for a non-negative [start];
    a [start] beyond the end is clamped to the length. *)
Definition splice {A} (arr : list A) (start deleteCount : nat)
    (items : list A) : list A :=
  let start := Nat.min start (length arr) in
  take start arr ++ items ++ drop (start + deleteCount) arr.

(** [arr.push(...items)] *)
Definition push {A} (arr : list A) (items : list A) : list A :=
  arr ++ items.

(** Truthiness of an optional string parameter: [undefined] and the empty
    string are falsy. *)
Definition truthy (x : option string) : bool :=
  match x with
  | Some s => negb (String.eqb s "")
  | None => false
  end.

(** The string held by an optional parameter that passed a truthiness
    test. *)
Definition val (x : option string) : string := default "" x.

(** A [switch] over string cases with [break] after each and a
    [default]. *)
Fixpoint switch {A} (x : string) (cases : list (string * A)) (dflt : A) : A :=
  match cases with
  | [] => dflt
  | (k, v) :: cases' => if String.eqb x k then v else switch x cases' dflt
  end.

(** The line feed of ["\n"]. *)
Definition nl : string := String (Ascii.ascii_of_nat 10) EmptyString.

End Js.

Import Js.

(** * The data model *)

(** The part of a parsed [URL] object the program reads. *)
Record URL := { hostname : string }.

(** [Config] of config.d.ts; the workflow reads [file.downloadsDir]. *)
Record FileConfig := {
  maxFilenameLength : Z;
  downloadsDir : string;
  tempDirPrefix : string
}.

Record Config := { file : FileConfig }.

(** The file system as the workflow sees it: each directory that exists,
    with the names of its entries.  Nesting of directories is not tracked. *)
Abbreviation FS := (gmap string (list string)).

(** ** Child processes *)

(** What [_spawnPromise] resolves to. *)
Record SpawnOutput := { stdout : string; stderr : string }.

(** A child process that ran to its [close] event: the exit code ([None]
    for [null], a process ended by a signal), what it wrote on its two
    streams, and the file system it leaves behind. *)
Record ProcResult := {
  code : option Z;
  output : SpawnOutput;
  fs_after : FS
}.

(** [`${code}`] *)
Definition show_code (c : option Z) : string :=
  match c with
  | Some z => pretty z
  | None => "null"
  end.

(** ** Video metadata *)

(** The metadata document of [yt-dlp --print-json], as far as the workflow
    reads it: [title] and [chapters], each chapter with [title],
    [start_time] and [end_time].  [chapters] is [None] when the field is
    absent or [null]. *)
Record Chapter (number : Type) := {
  title : string;
  start_time : number;
  end_time : number
}.
Arguments title {number} _.
Arguments start_time {number} _.
Arguments end_time {number} _.

Record VideoInfo (number : Type) := {
  video_title : string;
  chapters : option (list (Chapter number))
}.
Arguments video_title {number} _.
Arguments chapters {number} _.

(** ** The platform and the world

    What the program takes from its runtime, and what the child processes
    do, are parameters. *)

Class Platform := {
  (** JavaScript numbers and [String(x)] on them *)
  number : Type;
  String_of : number -> string;
  (** [new URL(url)]: [None] when the constructor throws *)
  URL_new : string -> option URL;
  (** [path.join(a, b)] *)
  path_join : string -> string -> string;
  (** [JSON.parse(text)] read as a metadata document: [None] when parsing
      or reading the document throws *)
  JSON_parse : string -> option (VideoInfo number)
}.

(** The world outside: the [n]-th child process of the run, spawned as
    [command args] in [cwd] on the file system [fs]. *)
Class World := {
  child_process :
    nat -> string -> list string -> option string -> FS -> ProcResult
}.

(** * Format selection and the downloader's arguments *)

Section Format.

Context {platform : Platform}.

Definition validateUrl (url : string) : bool :=
  match URL_new url with
  | Some _ => true
  | None => false
  end.

Definition isYouTubeUrl (url : string) : bool :=
  match URL_new url with
  | Some parsedUrl =>
      includes (hostname parsedUrl) "youtube.com" ||
      includes (hostname parsedUrl) "youtu.be"
  | None => false
  end.

(** Lines 54-86 of [downloadVideo]: the value of [format]. *)
Definition selectFormat (url resolution : string) : string :=
  if isYouTubeUrl url then
    switch resolution
      [ ("480p", "bestvideo[height<=480]+bestaudio/best[height<=480]/best");
        ("720p", "bestvideo[height<=720]+bestaudio/best[height<=720]/best");
        ("1080p", "bestvideo[height<=1080]+bestaudio/best[height<=1080]/best");
        ("best", "bestvideo+bestaudio/best") ]
      "bestvideo[height<=720]+bestaudio/best[height<=720]/best"
  else
    switch resolution
      [ ("480p", "worst[height>=480]/best[height<=480]/worst");
        ("best", "bestvideo+bestaudio/best") ]
      "bestvideo[height>=720]+bestaudio/best[height>=720]/best".

End Format.

(** The six expressions [format] can hold. *)
Definition formats : list string :=
  [ "bestvideo[height<=480]+bestaudio/best[height<=480]/best";
    "bestvideo[height<=720]+bestaudio/best[height<=720]/best";
    "bestvideo[height<=1080]+bestaudio/best[height<=1080]/best";
    "bestvideo+bestaudio/best";
    "worst[height>=480]/best[height<=480]/worst";
    "bestvideo[height>=720]+bestaudio/best[height>=720]/best" ].

(** Lines 88-106 of [downloadVideo]: the value of [downloadArgs] when the
    downloader is spawned. *)
Definition buildDownloadArgs (url format : string)
    (startTime endTime chapter : option string) : list string :=
  let downloadArgs := ["--progress"; "--newline"; "--no-mtime"; url] in
  let downloadArgs :=
    if negb (truthy startTime || truthy endTime || truthy chapter)
    then splice downloadArgs 4 0 ["-f"; format]
    else downloadArgs in
  if truthy startTime || truthy endTime then
    let sectionArgs := [] in
    let sectionArgs :=
      if truthy startTime then push sectionArgs ["-ss"; val startTime]
      else sectionArgs in
    let sectionArgs :=
      if truthy endTime then push sectionArgs ["-to"; val endTime]
      else sectionArgs in
    push downloadArgs
      ["--postprocessor-args"; "ffmpeg_downloader: " +:+ join " " sectionArgs]
  else downloadArgs.

(** * Effects: a store, exceptions and the trace of what was done *)

(** A thrown JavaScript error.  [SystemError] is the error of a failed [fs]
    call, with its code ([ENOENT]) and the path. *)
Inductive exn :=
  | Error (message : string)
  | SyntaxError (message : string)
  | SystemError (code path : string).

(** [error.message] *)
Definition message (e : exn) : string :=
  match e with
  | Error m => m
  | SyntaxError m => m
  | SystemError code path => code +:+ ": " +:+ path
  end.

(** The effects the workflow performs, in the order it performs them. *)
Inductive Event :=
  | Mkdir (path : string)
  | Spawn (command : string) (args : list string) (cwd : option string)
  | ConsoleError (data : list string)
  | ConsoleWarn (data : list string)
  | Rename (oldPath newPath : string)
  | Rm (path : string).

Record Store := {
  fs : FS;
  spawned : nat;
  trace : list Event
}.

Inductive Outcome (A : Type) :=
  | Return (a : A)
  | Throw (e : exn).
Arguments Return {A} a.
Arguments Throw {A} e.

Definition M (A : Type) : Type := Store -> Outcome A * Store.

Definition throw {A} (e : exn) : M A := fun σ => (Throw e, σ).

(** Sequencing is stdpp's [x ← m; k] and [m ;; k]; [await] is sequencing. *)
Global Instance M_ret : MRet M := λ A a σ, (Return a, σ).

Global Instance M_bind : MBind M := λ A B k m σ,
  match m σ with
  | (Return a, σ') => k a σ'
  | (Throw e, σ') => (Throw e, σ')
  end.

(** [try { body } catch (e) { handler e }] *)
Definition try_catch {A} (body : M A) (handler : exn -> M A) : M A :=
  fun σ =>
    match body σ with
    | (Return a, σ') => (Return a, σ')
    | (Throw e, σ') => handler e σ'
    end.

(** [try { body } finally { final }]: [final] runs on every exit of [body];
    the outcome is that of [body] unless [final] throws. *)
Definition try_finally {A} (body : M A) (final : M unit) : M A :=
  fun σ =>
    let '(r, σ') := body σ in
    match final σ' with
    | (Return _, σ'') => (r, σ'')
    | (Throw e, σ'') => (Throw e, σ'')
    end.

(** [for (const x of xs) { body x }] *)
Fixpoint for_of {A} (xs : list A) (body : A -> M unit) : M unit :=
  match xs with
  | [] => mret tt
  | x :: xs' => body x ;; for_of xs' body
  end.

Definition log (ev : Event) : M unit :=
  fun σ => (Return tt,
            {| fs := fs σ; spawned := spawned σ; trace := trace σ ++ [ev] |}).

Definition console_error (data : list string) : M unit :=
  log (ConsoleError data).

Definition console_warn (data : list string) : M unit :=
  log (ConsoleWarn data).

(** ** The [fs] module *)

Definition existsSync (path : string) : M bool :=
  fun σ => (Return (bool_decide (is_Some (fs σ !! path))), σ).

(** [fs.mkdirSync(path, { recursive: true })] *)
Definition mkdirSync (path : string) : M unit :=
  fun σ =>
    (Return tt,
     {| fs := match fs σ !! path with
              | Some _ => fs σ
              | None => <[path := []]> (fs σ)
              end;
        spawned := spawned σ;
        trace := trace σ ++ [Mkdir path] |}).

Definition readdirSync (path : string) : M (list string) :=
  fun σ =>
    match fs σ !! path with
    | Some entries => (Return entries, σ)
    | None => (Throw (SystemError "ENOENT" path), σ)
    end.

(** [fs.rmSync(path, { recursive: true, force: true })] *)
Definition rmSync (path : string) : M unit :=
  fun σ =>
    (Return tt,
     {| fs := delete path (fs σ);
        spawned := spawned σ;
        trace := trace σ ++ [Rm path] |}).

Definition remove_entry (name : string) (entries : list string) : list string :=
  filter (fun f => f ≠ name) entries.

(** The double quote character, as a string. *)
Definition dquote : string := String (Ascii.ascii_of_nat 34) EmptyString.

(** The characters [.] and [/]. *)
Definition dot : Ascii.ascii := Ascii.ascii_of_nat 46.
Definition slash : Ascii.ascii := Ascii.ascii_of_nat 47.

(** The test of line 129: [f => f.endsWith('.mp4') || f.endsWith('.webm')]. *)
Definition is_video (f : string) : bool :=
  endsWith f ".mp4" || endsWith f ".webm".

(** * The workflow *)

Section Workflow.

Context {platform : Platform} {world : World}.

(** [_spawnPromise(command, args, cwd)], awaited. *)
Definition _spawnPromise (command : string) (args : list string)
    (cwd : option string) : M SpawnOutput :=
  fun σ =>
    let process := child_process (spawned σ) command args cwd (fs σ) in
    let σ' := {| fs := fs_after process;
                 spawned := S (spawned σ);
                 trace := trace σ ++ [Spawn command args cwd] |} in
    if bool_decide (code process = Some 0) then
      (Return (output process), σ')
    else
      (Throw (Error ("Failed with exit code: " +:+ show_code (code process)
                     +:+ nl +:+ "Stdout: " +:+ stdout (output process)
                     +:+ nl +:+ "Stderr: " +:+ stderr (output process))),
       σ').

(** [fs.renameSync(path.join(oldDir, name), path.join(newDir, name))].  The
    two paths are given by directory and entry name, the way the store is
    indexed. *)
Definition renameSync (oldDir newDir name : string) : M unit :=
  fun σ =>
    let oldPath := path_join oldDir name in
    let newPath := path_join newDir name in
    match fs σ !! oldDir with
    | Some entries =>
        if bool_decide (name ∈ entries) then
          let fs1 := <[oldDir := remove_entry name entries]> (fs σ) in
          let fs2 :=
            <[newDir := remove_entry name (default [] (fs1 !! newDir))
                        ++ [name]]> fs1 in
          (Return tt,
           {| fs := fs2;
              spawned := spawned σ;
              trace := trace σ ++ [Rename oldPath newPath] |})
        else (Throw (SystemError "ENOENT" oldPath), σ)
    | None => (Throw (SystemError "ENOENT" oldPath), σ)
    end.

(** Lines 110-117: run the downloader in the staging directory. *)
Definition runDownloader (downloadArgs : list string)
    (tempDownloadDir : string) : M unit :=
  try_catch
    (r ← _spawnPromise "yt-dlp" downloadArgs (Some tempDownloadDir);
     if negb (String.eqb (stderr r) "")
     then console_error ["yt-dlp stderr:"; stderr r]
     else mret tt)
    (fun error => throw (Error ("Download failed: " +:+ message error))).

(** Lines 126-151: the body of the loop over the chapters. *)
Definition splitChapter (tempDownloadDir chapter : string)
    (videoInfo : VideoInfo number) (chap : Chapter number) : M unit :=
  if String.eqb chapter "all" || String.eqb (title chap) chapter then
    let chapterFileName :=
      video_title videoInfo +:+ " - " +:+ title chap +:+ ".mp4" in
    let chapterOutputPath := path_join tempDownloadDir chapterFileName in
    entries ← readdirSync tempDownloadDir;
    let fullVideoPath :=
      path_join tempDownloadDir
        (default "" (List.find is_video entries)) in
    if String.eqb fullVideoPath "" then
      throw (Error
        "Full video not found in temporary directory for chapter splitting.")
    else
      let ffmpegArgs :=
        [ "-i"; fullVideoPath;
          "-ss"; String_of (start_time chap);
          "-to"; String_of (end_time chap);
          "-c"; "copy";
          chapterOutputPath ] in
      try_catch
        (r ← _spawnPromise "ffmpeg" ffmpegArgs None;
         if negb (String.eqb (stderr r) "")
         then console_error ["FFmpeg stderr:"; stderr r]
         else mret tt)
        (fun ffmpegError =>
           console_error
             [ "Failed to extract chapter " +:+ dquote +:+ title chap
               +:+ dquote +:+ ":";
               message ffmpegError ])
  else mret tt.

(** Lines 120-156, inside [if (chapter)]. *)
Definition splitChapters (url tempDownloadDir chapter : string) : M unit :=
  infoJson ← _spawnPromise "yt-dlp" ["--print-json"; url] None;
  match JSON_parse (stdout infoJson) with
  | None => throw (SyntaxError "JSON.parse")
  | Some videoInfo =>
      match chapters videoInfo with
      | Some (chap :: chaps) =>
          for_of (chap :: chaps)
            (splitChapter tempDownloadDir chapter videoInfo)
      | _ =>
          console_warn
            ["No chapters found for video, or chapter metadata is missing."]
      end
  end.

(** Lines 158-170: move what was staged and report. *)
Definition moveDownloads (userDownloadsDir tempDownloadDir : string)
    : M string :=
  downloadedFiles ← readdirSync tempDownloadDir;
  if Nat.eqb (length downloadedFiles) 0 then
    throw (Error "No files were downloaded by yt-dlp.")
  else
    for_of downloadedFiles
      (fun file => renameSync tempDownloadDir userDownloadsDir file);;
    mret ("Video download process initiated to " +:+ userDownloadsDir
          +:+ ". Check the directory for the downloaded file(s).").

(** Lines 174-177: the [finally] block. *)
Definition cleanup (tempDownloadDir : string) : M unit :=
  tempExists ← existsSync tempDownloadDir;
  if (tempExists : bool) then rmSync tempDownloadDir else mret tt.

(** Lines 47-156: validation, staging directory, download and chapter
    splitting. *)
Definition runStages (url tempDownloadDir : string)
    (resolution : string) (startTime endTime chapter : option string)
    : M unit :=
  _ ← mret (validateUrl url);
  tempExists ← existsSync tempDownloadDir;
  (if negb tempExists then mkdirSync tempDownloadDir else mret tt);;
  let format := selectFormat url resolution in
  let downloadArgs :=
    buildDownloadArgs url format startTime endTime chapter in
  runDownloader downloadArgs tempDownloadDir;;
  if truthy chapter
  then splitChapters url tempDownloadDir (val chapter)
  else mret tt.

(** Lines 47-170: the [try] block. *)
Definition downloadBody (url userDownloadsDir tempDownloadDir : string)
    (resolution : string) (startTime endTime chapter : option string)
    : M string :=
  runStages url tempDownloadDir resolution startTime endTime chapter;;
  moveDownloads userDownloadsDir tempDownloadDir.

Definition downloadVideo (url : string) (config : Config)
    (resolution startTime endTime chapter : option string) : M string :=
  let resolution := default "720p" resolution in
  let userDownloadsDir := downloadsDir (file config) in
  let tempDownloadDir :=
    path_join userDownloadsDir "temp_yt_dlp_downloads" in
  try_finally
    (try_catch
       (downloadBody url userDownloadsDir tempDownloadDir
          resolution startTime endTime chapter)
       (fun error => throw error))
    (cleanup tempDownloadDir).

End Workflow.

(** * What the specification says, where it is compared with the code *)

(** The downloader's arguments in the order the specification lists them:
    the three flags, then [-f <format>] unless a time range or a chapter is
    requested, then the URL, then the post-processor block when a start or
    an end time is given. *)
Definition spec_downloadArgs (url format : string)
    (startTime endTime chapter : option string) : list string :=
  ["--progress"; "--newline"; "--no-mtime"]
  ++ (if truthy startTime || truthy endTime || truthy chapter
      then [] else ["-f"; format])
  ++ [url]
  ++ (if truthy startTime || truthy endTime
      then ["--postprocessor-args";
            "ffmpeg_downloader: " +:+
            join " " ((if truthy startTime then ["-ss"; val startTime] else [])
                      ++ (if truthy endTime then ["-to"; val endTime] else []))]
      else []).

(** The container extension of a file name: what follows its last dot. *)
Fixpoint container (f : string) : option string :=
  match f with
  | EmptyString => None
  | String c f' =>
      match container f' with
      | Some e => Some e
      | None => if Ascii.eqb c dot then Some f' else None
      end
  end.

(** The name of a chapter's output as the specification has it:
    [<video title> - <chapter title>.<container>], the container being that
    of the staged full video. *)
Definition spec_chapterFileName (videoTitle chapterTitle fullVideo : string)
    : string :=
  videoTitle +:+ " - " +:+ chapterTitle +:+ "." +:+
  default "" (container fullVideo).

(** * Reading a trace *)

(** The output paths handed to the media-trimming tool: the last argument
    of each [ffmpeg] process. *)
Fixpoint ffmpeg_outputs (t : list Event) : list string :=
  match t with
  | [] => []
  | Spawn command args _ :: t' =>
      if String.eqb command "ffmpeg"
      then option_list (last args) ++ ffmpeg_outputs t'
      else ffmpeg_outputs t'
  | _ :: t' => ffmpeg_outputs t'
  end.

Definition is_console (ev : Event) : bool :=
  match ev with
  | ConsoleError _ | ConsoleWarn _ => true
  | _ => false
  end.

(** [m], run in [σ], first performs the effects [evs]. *)
Definition begins_with {A} (m : M A) (σ : Store) (evs : list Event) : Prop :=
  exists t, trace (m σ).2 = trace σ ++ evs ++ t.

(** [m] only ever adds to the trace. *)
Definition appends {A} (m : M A) : Prop :=
  forall σ, begins_with m σ [].

(** The store once the staging directory is there (lines 50-52). *)
Definition staged (tmp : string) (σ : Store) : Store :=
  match fs σ !! tmp with
  | Some _ => σ
  | None => {| fs := <[tmp := []]> (fs σ);
               spawned := spawned σ;
               trace := trace σ ++ [Mkdir tmp] |}
  end.

(** The store once the downloader, run as [process], has exited with
    status zero (lines 110-114): its file system, and its standard error
    logged when there is any. *)
Definition downloaded (args : list string) (tmp : string)
    (process : ProcResult) (σ : Store) : Store :=
  {| fs := fs_after process;
     spawned := S (spawned σ);
     trace :=
       (trace σ ++ [Spawn "yt-dlp" args (Some tmp)])
       ++ (if String.eqb (stderr (output process)) "" then []
           else [ConsoleError ["yt-dlp stderr:"; stderr (output process)]]) |}.

(** ** POSIX paths

    Node's [path.join], which the program calls, is not code of the
    repository.  This is its documented behaviour on POSIX, by segments: the
    non-empty arguments are joined with [/] and the result is normalised.
    It gives the development an instance of [path_join]. *)

Module Posix.

(** [path.split('/')] *)
Fixpoint split (path : string) : list string :=
  match path with
  | EmptyString => [EmptyString]
  | String c path' =>
      if Ascii.eqb c slash then EmptyString :: split path'
      else match split path' with
           | segment :: segments => String c segment :: segments
           | [] => [String c EmptyString]
           end
  end.

(** One step of [normalizeString]: a segment against the segments kept so
    far, last first.  Empty and [.] segments are dropped; [..] removes the
    last kept segment, or is kept when there is none to remove and climbing
    above the root is allowed. *)
Definition resolve (allowAboveRoot : bool) (res : list string)
    (segment : string) : list string :=
  if String.eqb segment "" || String.eqb segment "." then res
  else if String.eqb segment ".." then
    match res with
    | last :: rest =>
        if String.eqb last ".."
        then (if allowAboveRoot then ".." :: res else res)
        else rest
    | [] => if allowAboveRoot then [".."] else []
    end
  else segment :: res.

(** [normalizeString(path, allowAboveRoot, '/', isPosixPathSeparator)] *)
Definition normalizeString (path : string) (allowAboveRoot : bool) : string :=
  String.concat "/"
    (reverse (fold_left (resolve allowAboveRoot) (split path) [])).

(** [path.charCodeAt(0) === 47] *)
Definition starts_with_slash (path : string) : bool :=
  match path with
  | String c _ => Ascii.eqb c slash
  | EmptyString => false
  end.

(** [path.charCodeAt(path.length - 1) === 47] *)
Fixpoint ends_with_slash (path : string) : bool :=
  match path with
  | EmptyString => false
  | String c EmptyString => Ascii.eqb c slash
  | String _ path' => ends_with_slash path'
  end.

(** The end of [normalize]: the normalised segments [path] with the
    leading and trailing separators put back. *)
Definition assemble (isAbsolute trailingSeparator : bool) (path : string)
    : string :=
  if String.eqb path "" then
    if isAbsolute then "/" else if trailingSeparator then "./" else "."
  else
    let path := if trailingSeparator then path +:+ "/" else path in
    if isAbsolute then "/" +:+ path else path.

(** [path.posix.normalize(path)] *)
Definition normalize (path : string) : string :=
  if String.eqb path "" then "." else
  let isAbsolute := starts_with_slash path in
  let trailingSeparator := ends_with_slash path in
  assemble isAbsolute trailingSeparator
    (normalizeString path (negb isAbsolute)).

(** [path.posix.join(a, b)]: the non-empty arguments joined with [/] and
    normalised; [.] when there is nothing to join. *)
Definition join (a b : string) : string :=
  let joined :=
    if String.eqb a "" then b
    else if String.eqb b "" then a
    else a +:+ "/" +:+ b in
  if String.eqb joined "" then "." else normalize joined.

(** A segment without separator. *)
Fixpoint no_slash (s : string) : bool :=
  match s with
  | EmptyString => true
  | String c s' => negb (Ascii.eqb c slash) && no_slash s'
  end.

(** A segment that names an entry. *)
Definition ordinary (s : string) : Prop :=
  no_slash s = true /\ s ≠ "" /\ s ≠ "." /\ s ≠ "..".

(** The segments kept by [normalizeString], last first: ordinary segments
    above a run of [..], which is empty unless climbing above the root is
    allowed. *)
Definition kept (allowAboveRoot : bool) (res : list string) : Prop :=
  exists norms ups,
    res = norms ++ ups /\ Forall ordinary norms /\
    Forall (fun s => s = "..") ups /\
    (allowAboveRoot = false -> ups = []).

End Posix.

(** * A concrete platform and concrete worlds

    Instances of the parameters, on which the general statements are
    exercised: POSIX paths, [https] URLs, integer chapter times. *)

Module Scenario.

(** The text up to the first slash. *)
Fixpoint until_slash (s : string) : string :=
  match s with
  | EmptyString => EmptyString
  | String c s' =>
      if Ascii.eqb c slash then EmptyString else String c (until_slash s')
  end.

(** [new URL(url)] on URLs of the form [https://host/...]; any other
    string is rejected. *)
Definition parse_https (url : string) : option URL :=
  if String.prefix "https://" url
  then Some {| hostname :=
                 until_slash
                   (String.substring 8 (String.length url - 8) url) |}
  else None.

Definition config : Config :=
  {| file := {| maxFilenameLength := 50;
                downloadsDir := "/home/u/Downloads";
                tempDirPrefix := "ytdlp-" |} |}.

Definition staging : string := "/home/u/Downloads/temp_yt_dlp_downloads".

Definition youtube : string := "https://www.youtube.com/watch?v=pvkTC2xIbeY".

(** A metadata document and its text. *)
Definition info : VideoInfo Z :=
  {| video_title := "Talk";
     chapters :=
       Some [ {| title := "Intro"; start_time := 0; end_time := 30 |};
              {| title := "Main"; start_time := 30; end_time := 600 |} ] |}.

Definition info_text : string :=
  "{" +:+ dquote +:+ "title" +:+ dquote +:+ ": " +:+ dquote +:+ "Talk"
  +:+ dquote +:+ ", ...}".

Definition parse_info (text : string) : option (VideoInfo Z) :=
  if String.eqb text info_text then Some info else None.

Definition posix : Platform :=
  {| number := Z;
     String_of := pretty;
     URL_new := parse_https;
     path_join := Posix.join;
     JSON_parse := parse_info |}.

(** An empty disk with the downloads directory. *)
Definition disk : FS := {[ "/home/u/Downloads" := [] ]}.

Definition start : Store := {| fs := disk; spawned := 0; trace := [] |}.

(** A world in which the download leaves [video.mp4] in the staging
    directory and every later process fails with status 1. *)
Definition metadata_fails : World :=
  {| child_process n command args cwd fs :=
       match n with
       | O => {| code := Some 0;
                 output := {| stdout := ""; stderr := "" |};
                 fs_after := <[staging := ["video.mp4"]]> fs |}
       | _ => {| code := Some 1;
                 output := {| stdout := ""; stderr := "ERROR: no metadata" |};
                 fs_after := fs |}
       end |}.

(** A world in which the download leaves [video.webm], the metadata is
    [info_text], and every process exits with status 0. *)
Definition webm_staged : World :=
  {| child_process n command args cwd fs :=
       match n with
       | O => {| code := Some 0;
                 output := {| stdout := ""; stderr := "" |};
                 fs_after := <[staging := ["video.webm"]]> fs |}
       | 1%nat => {| code := Some 0;
                     output := {| stdout := info_text; stderr := "" |};
                     fs_after := fs |}
       | _ => {| code := Some 0;
                 output := {| stdout := ""; stderr := "" |};
                 fs_after := fs |}
       end |}.

(** A world in which every process exits with status 0, warns on its
    standard error and writes nothing. *)
Definition writes_nothing : World :=
  {| child_process n command args cwd fs :=
       {| code := Some 0;
          output := {| stdout := ""; stderr := "WARNING: nothing to do" |};
          fs_after := fs |} |}.

(** A world in which every process exits with status 1. *)
Definition always_fails : World :=
  {| child_process n command args cwd fs :=
       {| code := Some 1;
          output := {| stdout := ""; stderr := "ERROR: unsupported URL" |};
          fs_after := fs |} |}.

(** The store after a download that staged [video.webm]. *)
Definition webm_store : Store :=
  {| fs := <[staging := ["video.webm"]]> disk;
     spawned := 2;
     trace := [] |}.

(** The store after a download that staged only a text file. *)
Definition no_video_store : Store :=
  {| fs := <[staging := ["notes.txt"]]> disk;
     spawned := 2;
     trace := [] |}.

Definition intro_chapter : Chapter Z :=
  {| title := "Intro"; start_time := 0; end_time := 30 |}.

(** [downloadVideo] on this platform, in a given world. *)
Definition run (world : World) (url : string)
    (resolution startTime endTime chapter : option string) : M string :=
  @downloadVideo posix world
    url config resolution startTime endTime chapter.

End Scenario.

(** * More of the code *)

(** ** Reading a trace, continued *)

(** The commands of the child processes spawned, in order. *)
Fixpoint commands (t : list Event) : list string :=
  match t with
  | [] => []
  | Spawn command _ _ :: t' => command :: commands t'
  | _ :: t' => commands t'
  end.

(** The renames performed, in order. *)
Fixpoint renames (t : list Event) : list (string * string) :=
  match t with
  | [] => []
  | Rename oldPath newPath :: t' => (oldPath, newPath) :: renames t'
  | _ :: t' => renames t'
  end.

(** The input files handed to the media-trimming tool: what follows [-i]
    at the head of the arguments of each [ffmpeg] process. *)
Fixpoint ffmpeg_inputs (t : list Event) : list string :=
  match t with
  | [] => []
  | Spawn command ("-i" :: input :: _) _ :: t' =>
      if String.eqb command "ffmpeg"
      then input :: ffmpeg_inputs t'
      else ffmpeg_inputs t'
  | _ :: t' => ffmpeg_inputs t'
  end.

(** [m] spawns no process. *)
Definition spawnless {A} (m : M A) : Prop :=
  forall σ, exists t, trace (m σ).2 = trace σ ++ t /\ commands t = [].

(** ** The rest of [modules/utils]

    A string is read as the sequence of its code units, one [ascii] each:
    the functions below are embedded for the strings whose code units are
    below 256. *)

Module Utils.

(** The code unit [c] lies in [lo..hi]. *)
Definition between (lo hi : N) (c : Ascii.ascii) : bool :=
  (lo <=? Ascii.N_of_ascii c)%N && (Ascii.N_of_ascii c <=? hi)%N.

Definition is_unit (n : N) (c : Ascii.ascii) : bool :=
  (Ascii.N_of_ascii c =? n)%N.

(** [s.replace(/[class]/g, replacement)], for a class of code units. *)
Fixpoint replace_class (class : Ascii.ascii -> bool) (replacement : string)
    (s : string) : string :=
  match s with
  | EmptyString => EmptyString
  | String c s' =>
      if class c then replacement +:+ replace_class class replacement s'
      else String c (replace_class class replacement s')
  end.

(** [s.replace(pattern, replacement)] for a one-unit string [pattern]: the
    first occurrence only. *)
Fixpoint replace_first (pattern : Ascii.ascii) (replacement : string)
    (s : string) : string :=
  match s with
  | EmptyString => EmptyString
  | String c s' =>
      if Ascii.eqb c pattern then replacement +:+ s'
      else String c (replace_first pattern replacement s')
  end.

(** [s.split(separator)], for a one-unit separator. *)
Fixpoint split (separator : Ascii.ascii) (s : string) : list string :=
  match s with
  | EmptyString => [EmptyString]
  | String c s' =>
      if Ascii.eqb c separator then EmptyString :: split separator s'
      else match split separator s' with
           | piece :: pieces => String c piece :: pieces
           | [] => [String c EmptyString]
           end
  end.

(** [[a-zA-Z0-9-_.]]: the units [sanitizeFilename] keeps. *)
Definition is_filename_unit (c : Ascii.ascii) : bool :=
  between 97 122 c || between 65 90 c || between 48 57 c
  || is_unit 45 c || is_unit 95 c || is_unit 46 c.

(** Lines 195-197. *)
Definition sanitizeFilename (filename : string) : string :=
  replace_class (fun c => negb (is_filename_unit c)) "_" filename.

(** [[:.]] *)
Definition is_colon_or_dot (c : Ascii.ascii) : bool :=
  is_unit 58 c || is_unit 46 c.

(** Lines 122-127, on the text [iso] of [new Date().toISOString()]. *)
Definition getFormattedTimestamp (iso : string) : string :=
  default ""
    (head (split dot
             (replace_first (Ascii.ascii_of_nat 84) "_"
                (replace_class is_colon_or_dot "-" iso)))).

(** One hexadecimal digit. *)
Definition hex_digit (n : N) : Ascii.ascii :=
  if (n <? 10)%N then Ascii.ascii_of_N (48 + n) else Ascii.ascii_of_N (87 + n).

(** [buffer.toString('hex')] *)
Fixpoint toString_hex (buffer : list Byte.byte) : string :=
  match buffer with
  | [] => EmptyString
  | b :: buffer' =>
      String (hex_digit (Byte.to_N b / 16))
        (String (hex_digit (Byte.to_N b mod 16)) (toString_hex buffer'))
  end.

(** Lines 140-144, on the text [iso] of the current date and the four
    bytes [random] of [randomBytes(4)]. *)
Definition generateRandomFilename (iso : string) (random : list Byte.byte)
    (extension : option string) : string :=
  let extension := default "mp4" extension in
  let timestamp := getFormattedTimestamp iso in
  let randomId := toString_hex random in
  timestamp +:+ "_" +:+ randomId +:+ "." +:+ extension.

(** [\s], and the units [trim] removes. *)
Definition is_space (c : Ascii.ascii) : bool :=
  between 9 13 c || is_unit 32 c || is_unit 160 c.

(** [\d] *)
Definition is_digit (c : Ascii.ascii) : bool := between 48 57 c.

Fixpoint trimStart (s : string) : string :=
  match s with
  | EmptyString => EmptyString
  | String c s' => if is_space c then trimStart s' else s
  end.

Fixpoint trimEnd (s : string) : string :=
  match s with
  | EmptyString => EmptyString
  | String c s' =>
      match trimEnd s' with
      | EmptyString => if is_space c then EmptyString else String c EmptyString
      | rest => String c rest
      end
  end.

(** [s.trim()] *)
Definition trim (s : string) : string := trimEnd (trimStart s).

(** [/^\d+$/.test(s)] *)
Fixpoint all_digits (s : string) : bool :=
  match s with
  | EmptyString => true
  | String c s' => is_digit c && all_digits s'
  end.

Definition is_sequence_number (s : string) : bool :=
  negb (String.eqb s "") && all_digits s.

(** Matching from the left: one unit of a class, [n] units of a class, as
    many units of a class as there are, a literal text.  Each gives what is
    left of the string, or nothing when it does not match. *)
Definition eat (class : Ascii.ascii -> bool) (s : string) : option string :=
  match s with
  | String c s' => if class c then Some s' else None
  | EmptyString => None
  end.

Fixpoint eat_n (n : nat) (class : Ascii.ascii -> bool) (s : string)
    : option string :=
  match n with
  | O => Some s
  | S n' => s' ← eat class s; eat_n n' class s'
  end.

Fixpoint skip (class : Ascii.ascii -> bool) (s : string) : string :=
  match s with
  | EmptyString => EmptyString
  | String c s' => if class c then skip class s' else s
  end.

Fixpoint eat_text (text : string) (s : string) : option string :=
  match text with
  | EmptyString => Some s
  | String c text' => s' ← eat (Ascii.eqb c) s; eat_text text' s'
  end.

(** [\d{2}:\d{2}:\d{2}[.,]\d{3}] *)
Definition eat_time (s : string) : option string :=
  s ← eat_n 2 is_digit s;
  s ← eat (is_unit 58) s;
  s ← eat_n 2 is_digit s;
  s ← eat (is_unit 58) s;
  s ← eat_n 2 is_digit s;
  s ← eat (fun c => is_unit 46 c || is_unit 44 c) s;
  eat_n 3 is_digit s.

(** The test of line 170: a time, [-->], a time, with any whitespace
    around the arrow.  The units after each [\s*] are not whitespace, so
    taking all the whitespace there is loses no match. *)
Definition is_timestamp (s : string) : bool :=
  match (s ← eat_time s;
         s ← eat_text "-->" (skip is_space s);
         eat_time (skip is_space s)) with
  | Some EmptyString => true
  | _ => false
  end.

(** The filter of lines 161-173. *)
Definition keeps (line : string) : bool :=
  let trimmed := trim line in
  if String.eqb trimmed "" then false
  else if is_sequence_number trimmed then false
  else if is_timestamp trimmed then false
  else true.

(** A [>] occurs in [s]. *)
Fixpoint has_gt (s : string) : bool :=
  match s with
  | EmptyString => false
  | String c s' => is_unit 62 c || has_gt s'
  end.

(** [line.replace(/<[^>]*>/g, '')]: a [<] opens a tag when a [>] follows
    somewhere, and the tag runs to the first one; [inside] holds within a
    tag. *)
Fixpoint strip_tags_from (inside : bool) (s : string) : string :=
  match s with
  | EmptyString => EmptyString
  | String c s' =>
      if inside then
        if is_unit 62 c then strip_tags_from false s'
        else strip_tags_from true s'
      else if is_unit 60 c && has_gt s' then strip_tags_from true s'
      else String c (strip_tags_from false s')
  end.

Definition strip_tags (line : string) : string := strip_tags_from false line.

(** The space. *)
Definition space : Ascii.ascii := Ascii.ascii_of_nat 32.

(** [s.replace(/\s+/g, ' ')]: [in_run] holds after a whitespace unit. *)
Fixpoint collapse_from (in_run : bool) (s : string) : string :=
  match s with
  | EmptyString => EmptyString
  | String c s' =>
      if is_space c then
        if in_run then collapse_from true s'
        else String space (collapse_from true s')
      else String c (collapse_from false s')
  end.

Definition collapse (s : string) : string := collapse_from false s.

(** Lines 158-181. *)
Definition cleanSubtitleToTranscript (srtContent : string) : string :=
  trim
    (collapse
       (join " "
          (map strip_tags
             (filter keeps (split (Ascii.ascii_of_nat 10) srtContent))))).

(** A text in which whitespace is single spaces between other units:
    [after_space] holds at the start and after a space. *)
Fixpoint spaced (after_space : bool) (s : string) : bool :=
  match s with
  | EmptyString => negb after_space
  | String c s' =>
      if is_space c then is_unit 32 c && negb after_space && spaced true s'
      else spaced false s'
  end.

(** Single spaces between words, none at either end; the empty text
    too. *)
Definition tidy (s : string) : bool :=
  String.eqb s "" || spaced true s.

(** As [spaced], but the text may end on a space. *)
Fixpoint loose (after_space : bool) (s : string) : bool :=
  match s with
  | EmptyString => true
  | String c s' =>
      if is_space c then is_unit 32 c && negb after_space && loose true s'
      else loose false s'
  end.

(** Every unit of [s] is in [class]. *)
Fixpoint every (class : Ascii.ascii -> bool) (s : string) : bool :=
  match s with
  | EmptyString => true
  | String c s' => class c && every class s'
  end.

End Utils.

(** ** The configuration module ([config.js])

    Regular expressions, [parseInt], [os.homedir], [path.parse],
    [path.extname] and [toUpperCase] are taken from the runtime. *)

Module ConfigJs.

(** A number held by [maxFilenameLength]: an integer, [NaN] as [parseInt]
    gives for a text that starts with no number, or an infinity as it
    gives for a text with too many digits. *)
Inductive num :=
  | NaN
  | Num (z : Z)
  | PosInfinity
  | NegInfinity.

(** Truthiness of a number. *)
Definition truthy_num (n : num) : bool :=
  match n with
  | NaN => false
  | Num z => negb (z =? 0)
  | PosInfinity | NegInfinity => true
  end.

(** [n < bound] *)
Definition num_lt (n : num) (bound : Z) : bool :=
  match n with
  | NaN | PosInfinity => false
  | Num z => z <? bound
  | NegInfinity => true
  end.

(** [length > n] *)
Definition length_gt (length : nat) (n : num) : bool :=
  match n with
  | NaN | PosInfinity => false
  | Num z => z <? Z.of_nat length
  | NegInfinity => true
  end.

Class Runtime := {
  RegExp : Type;
  (** [new RegExp(source)]: [None] when it throws *)
  RegExp_new : string -> option RegExp;
  (** The literal of line 14 *)
  illegalChars_default : RegExp;
  (** [text.replace(regexp, replacement)] *)
  String_replace : string -> RegExp -> string -> string;
  parseInt : string -> num;
  os_homedir : string;
  (** [path.parse(p).name] *)
  path_parse_name : string -> string;
  path_extname : string -> string;
  toUpperCase : string -> string
}.

Section Config.

Context {platform : Platform} {runtime : Runtime}.

Record Sanitize := {
  replaceChar : string;
  truncateSuffix : string;
  illegalChars : RegExp;
  reservedNames : list string
}.

Record File := {
  maxFilenameLength : num;
  downloadsDir : string;
  tempDirPrefix : string;
  sanitize : Sanitize
}.

Record Tools := { required : list string }.

Record Download := {
  defaultResolution : string;
  defaultAudioFormat : string;
  defaultSubtitleLanguage : string
}.

Record Config := {
  file : File;
  tools : Tools;
  download : Download
}.

(** A partial configuration, as [loadEnvConfig] builds it and
    [mergeConfig] reads it: any key may be missing. *)
Record PartialSanitize := {
  replaceChar' : option string;
  truncateSuffix' : option string;
  illegalChars' : option RegExp;
  reservedNames' : option (list string)
}.

Record PartialFile := {
  maxFilenameLength' : option num;
  downloadsDir' : option string;
  tempDirPrefix' : option string;
  sanitize' : option PartialSanitize
}.

Record PartialTools := { required' : option (list string) }.

Record PartialDownload := {
  defaultResolution' : option string;
  defaultAudioFormat' : option string;
  defaultSubtitleLanguage' : option string
}.

Record PartialConfig := {
  file' : option PartialFile;
  tools' : option PartialTools;
  download' : option PartialDownload
}.

(** Lines 6-30. *)
Definition defaultConfig : Config :=
  {| file :=
       {| maxFilenameLength := Num 50;
          downloadsDir := path_join os_homedir "Downloads";
          tempDirPrefix := "ytdlp-";
          sanitize :=
            {| replaceChar := "_";
               truncateSuffix := "...";
               illegalChars := illegalChars_default;
               reservedNames :=
                 [ "CON"; "PRN"; "AUX"; "NUL"; "COM1"; "COM2"; "COM3";
                   "COM4"; "COM5"; "COM6"; "COM7"; "COM8"; "COM9"; "LPT1";
                   "LPT2"; "LPT3"; "LPT4"; "LPT5"; "LPT6"; "LPT7"; "LPT8";
                   "LPT9" ] |} |};
     tools := {| required := ["yt-dlp"] |};
     download :=
       {| defaultResolution := "720p";
          defaultAudioFormat := "m4a";
          defaultSubtitleLanguage := "en" |} |}.

(** [process.env.NAME] when it is truthy: set and not empty. *)
Definition env_truthy (env : gmap string string) (name : string)
    : option string :=
  match env !! name with
  | Some text => if String.eqb text "" then None else Some text
  | None => None
  end.

(** [array.includes(x)] *)
Definition includes_string (array : list string) (x : string) : bool :=
  existsb (String.eqb x) array.

(** Lines 34-74: [None] when [new RegExp] throws. *)
Definition loadEnvConfig (env : gmap string string) : option PartialConfig :=
  illegal ←
    match env_truthy env "YTDLP_SANITIZE_ILLEGAL_CHARS" with
    | Some source => regexp ← RegExp_new source; Some (Some regexp)
    | None => Some None
    end;
  let fileConfig :=
    {| sanitize' :=
         Some {| replaceChar' := env !! "YTDLP_SANITIZE_REPLACE_CHAR";
                 truncateSuffix' := env !! "YTDLP_SANITIZE_TRUNCATE_SUFFIX";
                 illegalChars' := illegal;
                 reservedNames' :=
                   Utils.split (Ascii.ascii_of_nat 44)
                   <$> env !! "YTDLP_SANITIZE_RESERVED_NAMES" |};
       maxFilenameLength' :=
         parseInt <$> env_truthy env "YTDLP_MAX_FILENAME_LENGTH";
       downloadsDir' := env_truthy env "YTDLP_DOWNLOADS_DIR";
       tempDirPrefix' := env_truthy env "YTDLP_TEMP_DIR_PREFIX" |} in
  let downloadConfig :=
    {| defaultResolution' :=
         match env_truthy env "YTDLP_DEFAULT_RESOLUTION" with
         | Some r =>
             if includes_string ["480p"; "720p"; "1080p"; "best"] r
             then Some r else None
         | None => None
         end;
       defaultAudioFormat' :=
         match env_truthy env "YTDLP_DEFAULT_AUDIO_FORMAT" with
         | Some f => if includes_string ["m4a"; "mp3"] f then Some f else None
         | None => None
         end;
       defaultSubtitleLanguage' :=
         env_truthy env "YTDLP_DEFAULT_SUBTITLE_LANG" |} in
  Some {| file' := Some fileConfig;
          tools' := None;
          download' :=
            match defaultResolution' downloadConfig,
                  defaultAudioFormat' downloadConfig,
                  defaultSubtitleLanguage' downloadConfig with
            | None, None, None => None
            | _, _, _ => Some downloadConfig
            end |}.

(** [override || base], by the type of the value. *)
Definition or_string (override : option string) (base : string) : string :=
  match override with
  | Some text => if String.eqb text "" then base else text
  | None => base
  end.

Definition or_num (override : option num) (base : num) : num :=
  match override with
  | Some n => if truthy_num n then n else base
  | None => base
  end.

Definition or_object {A} (override : option A) (base : A) : A :=
  default base override.

(** Lines 107-129. *)
Definition mergeConfig (base : Config) (override : PartialConfig) : Config :=
  let file_ := file' override in
  let sanitize_ := file_ ≫= sanitize' in
  let download_ := download' override in
  {| file :=
       {| maxFilenameLength :=
            or_num (file_ ≫= maxFilenameLength')
              (maxFilenameLength (file base));
          downloadsDir :=
            or_string (file_ ≫= downloadsDir') (downloadsDir (file base));
          tempDirPrefix :=
            or_string (file_ ≫= tempDirPrefix') (tempDirPrefix (file base));
          sanitize :=
            {| replaceChar :=
                 or_string (sanitize_ ≫= replaceChar')
                   (replaceChar (sanitize (file base)));
               truncateSuffix :=
                 or_string (sanitize_ ≫= truncateSuffix')
                   (truncateSuffix (sanitize (file base)));
               illegalChars :=
                 or_object (sanitize_ ≫= illegalChars')
                   (illegalChars (sanitize (file base)));
               reservedNames :=
                 or_object (sanitize_ ≫= reservedNames')
                   (reservedNames (sanitize (file base))) |} |};
     tools :=
       {| required :=
            or_object (tools' override ≫= required')
              (required (tools base)) |};
     download :=
       {| defaultResolution :=
            or_string (download_ ≫= defaultResolution')
              (defaultResolution (download base));
          defaultAudioFormat :=
            or_string (download_ ≫= defaultAudioFormat')
              (defaultAudioFormat (download base));
          defaultSubtitleLanguage :=
            or_string (download_ ≫= defaultSubtitleLanguage')
              (defaultSubtitleLanguage (download base)) |} |}.

(** [[a-z]] under the [i] flag. *)
Definition is_letter (c : Ascii.ascii) : bool :=
  Utils.between 97 122 c || Utils.between 65 90 c.

(** The test of line 100,
    [/^[a-z]{2,3}(-[A-Z][a-z]{3})?(-[A-Z]{2})?$/i]: two or three letters,
    then nothing, or [-] and four letters, or [-] and two letters, or
    both in that order. *)
Definition is_language_tag (s : string) : bool :=
  match Utils.eat_n 2 is_letter s with
  | None => false
  | Some rest =>
      let rest := default rest (Utils.eat is_letter rest) in
      let region (r : string) : bool :=
        match r with
        | EmptyString => true
        | _ =>
            match (r ← Utils.eat (Utils.is_unit 45) r;
                   Utils.eat_n 2 is_letter r) with
            | Some EmptyString => true
            | _ => false
            end
        end in
      region rest ||
      match (r ← Utils.eat (Utils.is_unit 45) rest;
             Utils.eat_n 4 is_letter r) with
      | Some r => region r
      | None => false
      end
  end.

(** Lines 78-103: the error thrown, if any. *)
Definition validateConfig (config : Config) : option exn :=
  if num_lt (maxFilenameLength (file config)) 5 then
    Some (Error "maxFilenameLength must be at least 5")
  else if String.eqb (downloadsDir (file config)) "" then
    Some (Error "downloadsDir must be specified")
  else if String.eqb (tempDirPrefix (file config)) "" then
    Some (Error "tempDirPrefix must be specified")
  else if negb (includes_string ["480p"; "720p"; "1080p"; "best"]
                  (defaultResolution (download config))) then
    Some (Error "Invalid defaultResolution")
  else if negb (includes_string ["m4a"; "mp3"]
                  (defaultAudioFormat (download config))) then
    Some (Error "Invalid defaultAudioFormat")
  else if negb (is_language_tag
                  (defaultSubtitleLanguage (download config))) then
    Some (Error "Invalid defaultSubtitleLanguage")
  else None.

(** Lines 133-138, on the environment [env]. *)
Definition loadConfig (env : gmap string string) : Outcome Config :=
  match loadEnvConfig env with
  | None => Throw (SyntaxError "Invalid regular expression")
  | Some envConfig =>
      let config := mergeConfig defaultConfig envConfig in
      match validateConfig config with
      | Some error => Throw error
      | None => Return config
      end
  end.

(** [s.slice(0, end)] *)
Definition slice0 (s : string) (end_ : Z) : string :=
  let length := Z.of_nat (String.length s) in
  let stop := if end_ <? 0 then Z.max (length + end_) 0
              else Z.min end_ length in
  String.substring 0 (Z.to_nat stop) s.

(** [s.slice(0, n)] for a number [n]; [NaN] counts as 0, and the
    infinities are clamped to the ends of [s]. *)
Definition slice0_num (s : string) (n : num) : string :=
  match n with
  | NaN | NegInfinity => EmptyString
  | Num z => slice0 s z
  | PosInfinity => s
  end.

(** [n - a - b] on lengths *)
Definition num_minus (n : num) (a b : nat) : num :=
  match n with
  | Num z => Num (z - Z.of_nat a - Z.of_nat b)
  | _ => n
  end.

(** Lines 144-149: the value of [safe] when the length is looked at. *)
Definition safe_name (filename : string) (config : File) : string :=
  let safe :=
    String_replace filename (illegalChars (sanitize config))
      (replaceChar (sanitize config)) in
  let basename := toUpperCase (path_parse_name safe) in
  if includes_string (reservedNames (sanitize config)) basename
  then "_" +:+ safe else safe.

(** Lines 142-157. *)
Definition sanitizeFilename (filename : string) (config : File) : string :=
  let safe :=
    String_replace filename (illegalChars (sanitize config))
      (replaceChar (sanitize config)) in
  let basename := toUpperCase (path_parse_name safe) in
  let safe :=
    if includes_string (reservedNames (sanitize config)) basename
    then "_" +:+ safe else safe in
  if length_gt (String.length safe) (maxFilenameLength config) then
    let ext := path_extname safe in
    let name :=
      slice0_num safe
        (num_minus (maxFilenameLength config) (String.length ext)
           (String.length (truncateSuffix (sanitize config)))) in
    name +:+ truncateSuffix (sanitize config) +:+ ext
  else safe.

End Config.

End ConfigJs.

(** ** A runtime for the examples *)

Module ConfigScenario.

Import ConfigJs.

(** Decimal digits read from the left. *)
Fixpoint digits_value (acc : Z) (s : string) : Z :=
  match s with
  | EmptyString => acc
  | String c s' =>
      if Utils.is_digit c
      then digits_value (10 * acc + (Z.of_N (Ascii.N_of_ascii c) - 48)) s'
      else acc
  end.

(** [parseInt] on a text that starts with decimal digits, or with none. *)
Definition parse_decimal (text : string) : num :=
  match text with
  | String c _ => if Utils.is_digit c then Num (digits_value 0 text) else NaN
  | EmptyString => NaN
  end.

(** [path.extname] on a plain file name: the last dot and what follows. *)
Definition extname_plain (name : string) : string :=
  match container name with
  | Some e => "." +:+ e
  | None => EmptyString
  end.

(** Regular expressions that match one code unit of a class, everywhere;
    of [new RegExp] nothing is known. *)
Definition classes : Runtime :=
  {| RegExp := Ascii.ascii -> bool;
     RegExp_new source := None;
     illegalChars_default c :=
       Utils.between 0 31 c
       || existsb (fun n => Utils.is_unit n c)
            [60; 62; 58; 34; 47; 92; 124; 63; 42]%N;
     String_replace text regexp replacement :=
       Utils.replace_class regexp replacement text;
     parseInt := parse_decimal;
     os_homedir := "/home/u";
     path_parse_name name := name;
     path_extname := extname_plain;
     toUpperCase text := text |}.

(** An environment asking for names of at most 3 units and WebM videos at
    a resolution that does not exist. *)
Definition small_env : gmap string string :=
  {[ "YTDLP_MAX_FILENAME_LENGTH" := "3";
     "YTDLP_DEFAULT_RESOLUTION" := "4k" ]}.

(** An environment with a zero length and a downloads directory. *)
Definition zero_env : gmap string string :=
  {[ "YTDLP_MAX_FILENAME_LENGTH" := "0";
     "YTDLP_DOWNLOADS_DIR" := "/srv/media";
     "YTDLP_DEFAULT_RESOLUTION" := "4k" ]}.

(** The default file configuration with names of at most [n] units. *)
Definition file_config (n : Z) : @File classes :=
  {| maxFilenameLength := Num n;
     downloadsDir := "/home/u/Downloads";
     tempDirPrefix := "ytdlp-";
     sanitize :=
       {| replaceChar := "_";
          truncateSuffix := "...";
          illegalChars := @illegalChars_default classes;
          reservedNames := ["CON"; "PRN"] |} |}.

End ConfigScenario.

(** ** More stores *)

Module MoreScenario.

Import Scenario.

(** The store after a download that staged [video.webm], one process
    spawned so far. *)
Definition downloaded_webm : Store :=
  {| fs := <[staging := ["video.webm"]]> disk;
     spawned := 1;
     trace := [] |}.

(** The store while splitting all chapters: the output of the first
    chapter is listed before the full video. *)
Definition first_chapter_written : Store :=
  {| fs := <[staging := ["Talk - Intro.mp4"; "video.mp4"]]> disk;
     spawned := 3;
     trace := [] |}.

Definition main_chapter : Chapter Z :=
  {| title := "Main"; start_time := 30; end_time := 600 |}.

End MoreScenario.

(** * Properties *)

(** ** Strings and arrays *)

(** Membership in an explicit list. *)
Ltac in_list := rewrite ?elem_of_cons; auto 10.

(** Case analysis on membership in an explicit list. *)
Ltac cases_in H :=
  repeat (apply elem_of_cons in H as [H|H]); [..|apply elem_of_nil in H as []].

Lemma switch_miss {A} (x : string) (cases : list (string * A)) (dflt : A) :
  x ∉ cases.*1 -> switch x cases dflt = dflt.
Proof.
  induction cases as [|[k v] cases IH]; intros Hx; [done|].
  cbn in *. apply not_elem_of_cons in Hx as [Hk Hx].
  apply String.eqb_neq in Hk. rewrite Hk. auto.
Qed.

(** ** Format selection *)

Section FormatFacts.

Context {platform : Platform}.

Lemma selectFormat_formats (url resolution : string) :
  selectFormat url resolution ∈ formats.
Proof.
  unfold selectFormat, formats. destruct (isYouTubeUrl url); cbn.
  - repeat (case String.eqb; [in_list|]). in_list.
  - repeat (case String.eqb; [in_list|]). in_list.
Qed.

(** C3. For a URL that parses, the format expression [downloadVideo]
    computes (the resolution defaulting to 720p when it is not given) is:
    on a host containing [youtube.com] or [youtu.be], the height-capped
    expression of 480p, 720p or 1080p, the unconstrained one for [best],
    and the 720p one for any other value; on any other host, the
    worst-floor expression for 480p, the unconstrained one for [best], and
    the at-least-720 expression for every other value, 720p and 1080p
    included. *)
Theorem selectFormat_table (url : string) (parsedUrl : URL)
    (resolution : option string) :
  URL_new url = Some parsedUrl ->
  let recognized :=
    includes (hostname parsedUrl) "youtube.com" ||
    includes (hostname parsedUrl) "youtu.be" in
  let format := selectFormat url (default "720p" resolution) in
  (recognized = true ->
     (resolution = Some "480p" ->
        format = "bestvideo[height<=480]+bestaudio/best[height<=480]/best") /\
     (resolution = Some "720p" ->
        format = "bestvideo[height<=720]+bestaudio/best[height<=720]/best") /\
     (resolution = Some "1080p" ->
        format = "bestvideo[height<=1080]+bestaudio/best[height<=1080]/best") /\
     (resolution = Some "best" -> format = "bestvideo+bestaudio/best") /\
     (resolution ∉ [Some "480p"; Some "720p"; Some "1080p"; Some "best"] ->
        format = "bestvideo[height<=720]+bestaudio/best[height<=720]/best")) /\
  (recognized = false ->
     (resolution = Some "480p" ->
        format = "worst[height>=480]/best[height<=480]/worst") /\
     (resolution = Some "best" -> format = "bestvideo+bestaudio/best") /\
     (resolution ∉ [Some "480p"; Some "best"] ->
        format = "bestvideo[height>=720]+bestaudio/best[height>=720]/best")).
Proof.
  intros Hurl recognized format. subst format.
  unfold selectFormat, isYouTubeUrl. rewrite Hurl. fold recognized.
  split; intros ->.
  - repeat split; try (intros ->; reflexivity).
    intros Hother. destruct resolution as [r|]; [|reflexivity].
    change (default "720p" (Some r)) with r.
    apply switch_miss. cbn. intros Hin. apply Hother.
    apply (list_elem_of_fmap_2 Some) in Hin. exact Hin.
  - repeat split; try (intros ->; reflexivity).
    intros Hother. destruct resolution as [r|]; [|reflexivity].
    change (default "720p" (Some r)) with r.
    apply switch_miss. cbn. intros Hin. apply Hother.
    apply (list_elem_of_fmap_2 Some) in Hin. exact Hin.
Qed.

(** The downloader's arguments, laid out. *)
Lemma buildDownloadArgs_eq (url format : string)
    (startTime endTime chapter : option string) :
  buildDownloadArgs url format startTime endTime chapter =
  ["--progress"; "--newline"; "--no-mtime"; url]
  ++ (if truthy startTime || truthy endTime || truthy chapter
      then [] else ["-f"; format])
  ++ (if truthy startTime || truthy endTime
      then ["--postprocessor-args";
            "ffmpeg_downloader: " +:+
            join " " ((if truthy startTime then ["-ss"; val startTime] else [])
                      ++ (if truthy endTime then ["-to"; val endTime] else []))]
      else []).
Proof.
  unfold buildDownloadArgs.
  destruct (truthy startTime), (truthy endTime), (truthy chapter); reflexivity.
Qed.

Lemma format_not_section (format rest : string) :
  format ∈ formats -> format ≠ "ffmpeg_downloader: " +:+ rest.
Proof. intros Hf. cases_in Hf; subst; discriminate. Qed.

(** C4. When [startTime], [endTime] or [chapter] is set (present and not
    empty, which is what the code tests), the downloader's argument list
    holds no [-f] and no format expression: the only slot that could is the
    fourth, which is the caller's URL, so for a URL that is not itself one
    of these two strings the list contains neither.  When none of the three
    is set the list is the three flags, the URL and the pair
    [-f <format>]. *)
Theorem format_flag_omitted (url resolution : string)
    (startTime endTime chapter : option string) :
  let format := selectFormat url resolution in
  let args := buildDownloadArgs url format startTime endTime chapter in
  let requested := truthy startTime || truthy endTime || truthy chapter in
  (requested = true ->
     forall (i : nat) (a : string),
       args !! i = Some a -> a = "-f" \/ a = format -> i = 3%nat) /\
  (requested = true -> url ≠ "-f" -> url ≠ format ->
     ("-f" ∉ args) /\ (format ∉ args)) /\
  (requested = false ->
     args = ["--progress"; "--newline"; "--no-mtime"; url; "-f"; format]).
Proof.
  intros format args requested.
  assert (Hfmt : format ∈ formats) by apply selectFormat_formats.
  assert (Hslot : requested = true ->
            forall (i : nat) (a : string),
              args !! i = Some a -> a = "-f" \/ a = format -> i = 3%nat).
  { intros Hreq i a Hi Ha. subst args. rewrite buildDownloadArgs_eq in Hi.
    fold requested in Hi. rewrite Hreq in Hi.
    destruct (truthy startTime || truthy endTime);
      do 6 (try destruct i as [|i]); cbn in Hi; try done;
      injection Hi as <-; destruct Ha as [Ha|Ha]; try discriminate;
      try (by apply format_not_section in Ha);
      cases_in Hfmt; rewrite Hfmt in Ha; discriminate. }
  split; [exact Hslot|]. split.
  - intros Hreq Hu1 Hu2.
    assert (H3 : args !! 3%nat = Some url).
    { subst args. rewrite buildDownloadArgs_eq. reflexivity. }
    split; intros [i Hi]%list_elem_of_lookup_1.
    + assert (i = 3%nat) by (eapply Hslot; eauto). subst i. congruence.
    + assert (i = 3%nat) by (eapply Hslot; eauto). subst i. congruence.
  - intros Hreq. subst args. rewrite buildDownloadArgs_eq.
    fold requested. rewrite Hreq.
    destruct (truthy startTime) eqn:Hs; [done|].
    destruct (truthy endTime) eqn:He; [done|]. reflexivity.
Qed.

End FormatFacts.

(** ** The monad: every computation extends the trace *)

Lemma appends_mret {A} (a : A) : appends (mret a).
Proof. intros σ. exists []. cbn. by rewrite app_nil_r. Qed.

Lemma appends_throw {A} (e : exn) : appends (@throw A e).
Proof. intros σ. exists []. cbn. by rewrite app_nil_r. Qed.

Lemma begins_with_bind {A B} (m : M A) (k : A -> M B) σ evs :
  begins_with m σ evs -> (forall a, appends (k a)) ->
  begins_with (m ≫= k) σ evs.
Proof.
  intros [t Ht] Hk. unfold begins_with, mbind, M_bind.
  destruct (m σ) as [[a|e] σ1]; cbn in *.
  - destruct (Hk a σ1) as [t' Ht']. exists (t ++ t').
    rewrite Ht', Ht. cbn. by rewrite <- !app_assoc.
  - exists t. exact Ht.
Qed.

Lemma appends_bind {A B} (m : M A) (k : A -> M B) :
  appends m -> (forall a, appends (k a)) -> appends (m ≫= k).
Proof. intros Hm Hk σ. apply begins_with_bind; auto. Qed.

Lemma begins_with_try_catch {A} (body : M A) (handler : exn -> M A) σ evs :
  begins_with body σ evs -> (forall e, appends (handler e)) ->
  begins_with (try_catch body handler) σ evs.
Proof.
  intros [t Ht] Hh. unfold begins_with, try_catch.
  destruct (body σ) as [[a|e] σ1]; cbn in *.
  - exists t. exact Ht.
  - destruct (Hh e σ1) as [t' Ht']. exists (t ++ t').
    rewrite Ht', Ht. cbn. by rewrite <- !app_assoc.
Qed.

Lemma appends_try_catch {A} (body : M A) (handler : exn -> M A) :
  appends body -> (forall e, appends (handler e)) ->
  appends (try_catch body handler).
Proof. intros Hb Hh σ. apply begins_with_try_catch; auto. Qed.

Lemma begins_with_try_finally {A} (body : M A) (final : M unit) σ evs :
  begins_with body σ evs -> appends final ->
  begins_with (try_finally body final) σ evs.
Proof.
  intros [t Ht] Hf. unfold begins_with, try_finally.
  destruct (body σ) as [r σ1]; cbn in *.
  destruct (Hf σ1) as [t' Ht'].
  exists (t ++ t').
  destruct (final σ1) as [[u|e] σ2]; cbn in *;
    rewrite Ht', Ht; cbn; by rewrite <- !app_assoc.
Qed.

Lemma appends_for_of {A} (xs : list A) (body : A -> M unit) :
  (forall x, appends (body x)) -> appends (for_of xs body).
Proof.
  intros Hb. induction xs as [|x xs IH]; cbn.
  - apply appends_mret.
  - apply appends_bind; auto.
Qed.

Lemma appends_log (ev : Event) : appends (log ev).
Proof. intros σ. exists [ev]. reflexivity. Qed.

Lemma appends_console_error (data : list string) :
  appends (console_error data).
Proof. apply appends_log. Qed.

Lemma appends_console_warn (data : list string) :
  appends (console_warn data).
Proof. apply appends_log. Qed.

Lemma appends_existsSync (path : string) : appends (existsSync path).
Proof. intros σ. exists []. cbn. by rewrite app_nil_r. Qed.

Lemma appends_mkdirSync (path : string) : appends (mkdirSync path).
Proof. intros σ. exists [Mkdir path]. reflexivity. Qed.

Lemma appends_readdirSync (path : string) : appends (readdirSync path).
Proof.
  intros σ. exists []. unfold readdirSync.
  destruct (fs σ !! path); cbn; by rewrite app_nil_r.
Qed.

Lemma appends_rmSync (path : string) : appends (rmSync path).
Proof. intros σ. exists [Rm path]. reflexivity. Qed.

Lemma appends_if {A} (b : bool) (m1 m2 : M A) :
  appends m1 -> appends m2 -> appends (if b then m1 else m2).
Proof. by destruct b. Qed.

Create HintDb appends.

#[export] Hint Resolve appends_mret appends_throw appends_bind
  appends_try_catch appends_for_of appends_log appends_console_error
  appends_console_warn appends_existsSync appends_mkdirSync
  appends_readdirSync appends_rmSync appends_if : appends.

(** ** The workflow *)

Section WorkflowFacts.

Context {platform : Platform} {world : World}.

(** The staging directory of a configuration. *)
Local Abbreviation staging_of config :=
  (path_join (downloadsDir (file config)) "temp_yt_dlp_downloads").

(** The downloader's arguments of a call. *)
Local Abbreviation args_of url resolution startTime endTime chapter :=
  (buildDownloadArgs url (selectFormat url (default "720p" resolution))
     startTime endTime chapter).

Lemma appends_spawnPromise command args cwd :
  appends (_spawnPromise command args cwd).
Proof.
  intros σ. exists [Spawn command args cwd]. unfold _spawnPromise.
  case bool_decide; reflexivity.
Qed.

Lemma appends_renameSync oldDir newDir name :
  appends (renameSync oldDir newDir name).
Proof.
  intros σ. unfold renameSync, begins_with.
  destruct (fs σ !! oldDir) as [entries|]; [case bool_decide|]; cbn;
    eauto using app_nil_r.
Qed.

Hint Resolve appends_spawnPromise appends_renameSync : appends.

Lemma appends_runDownloader args tmp : appends (runDownloader args tmp).
Proof.
  unfold runDownloader.
  apply appends_try_catch; [apply appends_bind|]; intros;
    auto with appends.
Qed.

Lemma appends_splitChapter tmp chapter videoInfo chap :
  appends (splitChapter tmp chapter videoInfo chap).
Proof.
  unfold splitChapter.
  apply appends_if; [|auto with appends].
  apply appends_bind; [auto with appends|]. intros entries.
  apply appends_if; [auto with appends|].
  apply appends_try_catch; [apply appends_bind|]; intros;
    auto with appends.
Qed.

Lemma appends_splitChapters url tmp chapter :
  appends (splitChapters url tmp chapter).
Proof.
  unfold splitChapters.
  apply appends_bind; [auto with appends|]. intros infoJson.
  destruct (JSON_parse _) as [videoInfo|]; [|auto with appends].
  destruct (chapters videoInfo) as [[|chap chaps]|]; auto with appends.
  apply appends_for_of. intros. apply appends_splitChapter.
Qed.

Lemma appends_moveDownloads dir tmp : appends (moveDownloads dir tmp).
Proof.
  unfold moveDownloads.
  apply appends_bind; [auto with appends|]. intros files.
  apply appends_if; auto 6 with appends.
Qed.

Lemma appends_cleanup tmp : appends (cleanup tmp).
Proof.
  unfold cleanup. apply appends_bind; [auto with appends|].
  intros []; auto with appends.
Qed.

Hint Resolve appends_runDownloader appends_splitChapter
  appends_splitChapters appends_moveDownloads appends_cleanup : appends.

Lemma staged_spawned tmp σ : spawned (staged tmp σ) = spawned σ.
Proof. unfold staged. by destruct (fs σ !! tmp). Qed.

Lemma staged_trace tmp σ :
  trace (staged tmp σ) =
  trace σ ++ match fs σ !! tmp with Some _ => [] | None => [Mkdir tmp] end.
Proof. unfold staged. destruct (fs σ !! tmp); cbn; by rewrite ?app_nil_r. Qed.

(** [runStages] is the downloader run on the staged store, followed by the
    chapter splitting. *)
Lemma runStages_unfold url tmp resolution startTime endTime chapter σ :
  runStages url tmp resolution startTime endTime chapter σ =
  (runDownloader
     (buildDownloadArgs url (selectFormat url resolution)
        startTime endTime chapter) tmp;;
   if truthy chapter then splitChapters url tmp (val chapter) else mret tt)
    (staged tmp σ).
Proof.
  unfold runStages, staged, mbind, M_bind, mret, M_ret,
    existsSync, mkdirSync. cbn.
  destruct (fs σ !! tmp) as [entries|] eqn:Htmp; [reflexivity|].
  rewrite bool_decide_eq_false_2 by (intros [? ?]; done). cbn.
  rewrite Htmp. reflexivity.
Qed.

(** What the downloader run does, by exit status. *)
Lemma runDownloader_zero args tmp σ :
  let process := child_process (spawned σ) "yt-dlp" args (Some tmp) (fs σ) in
  code process = Some 0 ->
  runDownloader args tmp σ =
  (Return tt,
   {| fs := fs_after process;
      spawned := S (spawned σ);
      trace := (trace σ ++ [Spawn "yt-dlp" args (Some tmp)])
               ++ (if String.eqb (stderr (output process)) "" then []
                   else [ConsoleError ["yt-dlp stderr:";
                                       stderr (output process)]]) |}).
Proof.
  intros process Hcode.
  unfold runDownloader, try_catch, mbind, M_bind,
    _spawnPromise.
  fold process. rewrite bool_decide_eq_true_2 by done.
  destruct (String.eqb (stderr (output process)) ""); cbn;
    by rewrite ?app_nil_r.
Qed.

Lemma runDownloader_nonzero args tmp σ :
  let process := child_process (spawned σ) "yt-dlp" args (Some tmp) (fs σ) in
  code process ≠ Some 0 ->
  runDownloader args tmp σ =
  (Throw (Error ("Download failed: " +:+
                 ("Failed with exit code: " +:+ show_code (code process)
                  +:+ nl +:+ "Stdout: " +:+ stdout (output process)
                  +:+ nl +:+ "Stderr: " +:+ stderr (output process)))),
   {| fs := fs_after process;
      spawned := S (spawned σ);
      trace := trace σ ++ [Spawn "yt-dlp" args (Some tmp)] |}).
Proof.
  intros process Hcode.
  unfold runDownloader, try_catch, mbind, M_bind,
    _spawnPromise.
  fold process. rewrite bool_decide_eq_false_2 by done. reflexivity.
Qed.

Lemma runDownloader_begins args tmp σ :
  begins_with (runDownloader args tmp) σ [Spawn "yt-dlp" args (Some tmp)].
Proof.
  unfold begins_with.
  destruct (decide (code (child_process (spawned σ) "yt-dlp" args (Some tmp)
                            (fs σ)) = Some 0)) as [H|H].
  - rewrite runDownloader_zero by done. cbn. rewrite <- app_assoc. eauto.
  - rewrite runDownloader_nonzero by done. cbn. exists []. reflexivity.
Qed.

(** The first effects of a call: the staging directory is created unless it
    is there, and the downloader is spawned in it. *)
Lemma downloadVideo_begins url config resolution startTime endTime chapter σ :
  let tmp := staging_of config in
  begins_with
    (downloadVideo url config resolution startTime endTime chapter) σ
    (match fs σ !! tmp with Some _ => [] | None => [Mkdir tmp] end ++
     [Spawn "yt-dlp"
        (buildDownloadArgs url
           (selectFormat url (default "720p" resolution))
           startTime endTime chapter)
        (Some tmp)]).
Proof.
  intros tmp. unfold downloadVideo. fold tmp.
  apply begins_with_try_finally; [|apply appends_cleanup].
  apply begins_with_try_catch; [|auto with appends].
  unfold downloadBody.
  apply begins_with_bind; [|auto with appends].
  unfold begins_with. rewrite runStages_unfold.
  set (args := buildDownloadArgs _ _ _ _ _).
  assert (Hk : forall a : unit,
            appends (if truthy chapter
                     then splitChapters url tmp (val chapter)
                     else mret tt)) by auto with appends.
  destruct (begins_with_bind _ _ _ _ (runDownloader_begins args tmp
                                        (staged tmp σ)) Hk) as [t Ht].
  exists t. rewrite Ht, staged_trace. by rewrite <- !app_assoc.
Qed.

(** C1 (the code departs from it).  A URL that [new URL] rejects is not
    turned away: [validateUrl] answers [false], the answer is dropped, and
    the call goes on to create the staging directory and to spawn the
    downloader on that URL. *)
Theorem invalid_url_reaches_downloader url config resolution
    startTime endTime chapter σ :
  let tmp := staging_of config in
  validateUrl url = false ->
  fs σ !! tmp = None ->
  begins_with
    (downloadVideo url config resolution startTime endTime chapter) σ
    [ Mkdir tmp;
      Spawn "yt-dlp"
        (buildDownloadArgs url
           (selectFormat url (default "720p" resolution))
           startTime endTime chapter)
        (Some tmp) ].
Proof.
  intros tmp _ Htmp.
  pose proof (downloadVideo_begins url config resolution startTime endTime
                chapter σ) as Hb.
  cbn zeta in Hb. fold tmp in Hb. rewrite Htmp in Hb. exact Hb.
Qed.

Lemma cleanup_removes tmp σ : fs (cleanup tmp σ).2 !! tmp = None.
Proof.
  unfold cleanup, mbind, M_bind, existsSync, rmSync. cbn.
  case bool_decide_reflect; intros Hex; cbn.
  - apply lookup_delete_eq.
  - by apply eq_None_not_Some.
Qed.

Lemma cleanup_returns tmp σ : (cleanup tmp σ).1 = Return tt.
Proof.
  unfold cleanup, mbind, M_bind, existsSync, rmSync. cbn.
  by case bool_decide.
Qed.

(** C2. Whatever the outcome of a call (a returned message or any thrown
    error), the staging directory under the destination directory does not
    exist in the store the call leaves; so after two calls in sequence on
    the same destination it exists after neither. *)
Theorem staging_removed_on_every_exit config
    url1 resolution1 startTime1 endTime1 chapter1
    url2 resolution2 startTime2 endTime2 chapter2 σ :
  let tmp := staging_of config in
  let first :=
    downloadVideo url1 config resolution1 startTime1 endTime1 chapter1 σ in
  let second :=
    downloadVideo url2 config resolution2 startTime2 endTime2 chapter2
      first.2 in
  fs first.2 !! tmp = None /\ fs second.2 !! tmp = None.
Proof.
  intros tmp first second.
  assert (Hremoved : forall url resolution startTime endTime chapter σ0,
            fs (downloadVideo url config resolution startTime endTime chapter
                  σ0).2 !! tmp = None).
  { intros. unfold downloadVideo, try_finally. fold tmp.
    destruct (try_catch _ _ σ0) as [outcome σ1].
    pose proof (cleanup_removes tmp σ1) as Hrm.
    by destruct (cleanup tmp σ1) as [[u|e] σ2]. }
  split; apply Hremoved.
Qed.

(** C5 (as the code has it).  The downloader is spawned in the staging
    directory with, in order: [--progress], [--newline], [--no-mtime], the
    URL, then [-f <format>] when neither a time nor a chapter is requested,
    then, when a start or an end time is given, [--postprocessor-args] and
    one argument holding [-ss <start>] and/or [-to <end>]. *)
Theorem downloader_arguments url config resolution startTime endTime chapter σ :
  let tmp := staging_of config in
  let format := selectFormat url (default "720p" resolution) in
  let args :=
    ["--progress"; "--newline"; "--no-mtime"; url]
    ++ (if truthy startTime || truthy endTime || truthy chapter
        then [] else ["-f"; format])
    ++ (if truthy startTime || truthy endTime
        then ["--postprocessor-args";
              "ffmpeg_downloader: " +:+
              join " " ((if truthy startTime then ["-ss"; val startTime]
                         else [])
                        ++ (if truthy endTime then ["-to"; val endTime]
                            else []))]
        else []) in
  begins_with
    (downloadVideo url config resolution startTime endTime chapter) σ
    (match fs σ !! tmp with Some _ => [] | None => [Mkdir tmp] end
     ++ [Spawn "yt-dlp" args (Some tmp)]).
Proof.
  cbn zeta. rewrite <- buildDownloadArgs_eq. apply downloadVideo_begins.
Qed.

(** The [try] block and [finally], once the stages have returned. *)
Lemma downloadVideo_after_stages url config resolution
    startTime endTime chapter σ σ1 :
  let dir := downloadsDir (file config) in
  let tmp := staging_of config in
  runStages url tmp (default "720p" resolution) startTime endTime chapter σ
  = (Return tt, σ1) ->
  downloadVideo url config resolution startTime endTime chapter σ =
  try_finally (moveDownloads dir tmp) (cleanup tmp) σ1.
Proof.
  intros dir tmp Hstages. subst dir tmp.
  unfold downloadVideo, try_finally, try_catch, downloadBody, mbind, M_bind.
  rewrite Hstages.
  destruct (moveDownloads _ _ σ1) as [[msg|e] σ2]; reflexivity.
Qed.

(** C6. When the downloader has exited with status zero, the chapter
    splitting (if a chapter is requested) has returned, and the staging
    directory is then empty, the call throws the no-output error, and the
    staging directory is removed before it does. *)
Theorem no_output_is_a_failure url config resolution
    startTime endTime chapter σ σ1 :
  let tmp := staging_of config in
  let args := args_of url resolution startTime endTime chapter in
  let download :=
    child_process (spawned σ) "yt-dlp" args (Some tmp) (fs (staged tmp σ)) in
  code download = Some 0 ->
  (if truthy chapter then splitChapters url tmp (val chapter) else mret tt)
    (downloaded args tmp download (staged tmp σ)) = (Return tt, σ1) ->
  fs σ1 !! tmp = Some [] ->
  downloadVideo url config resolution startTime endTime chapter σ =
  (Throw (Error "No files were downloaded by yt-dlp."),
   {| fs := delete tmp (fs σ1);
      spawned := spawned σ1;
      trace := trace σ1 ++ [Rm tmp] |}).
Proof.
  intros tmp args download Hcode Hsplit Hempty.
  assert (Hstages :
    runStages url tmp (default "720p" resolution) startTime endTime chapter σ
    = (Return tt, σ1)).
  { rewrite runStages_unfold. fold args. unfold mbind at 1, M_bind at 1.
    rewrite runDownloader_zero; rewrite staged_spawned; fold download;
      [|done].
    unfold downloaded in Hsplit. rewrite staged_spawned in Hsplit.
    exact Hsplit. }
  rewrite (downloadVideo_after_stages _ _ _ _ _ _ _ _ Hstages). fold tmp.
  unfold try_finally, moveDownloads, readdirSync, mbind, M_bind.
  rewrite Hempty. cbn.
  unfold cleanup, mbind, M_bind, existsSync. cbn.
  rewrite bool_decide_eq_true_2 by eauto. reflexivity.
Qed.

(** C7 (as the code has it).  With a chapter requested, the download
    done with status zero and the metadata process exiting with another
    status, the call throws that process's error as it is, moves nothing
    (no rename is performed) and removes the staging directory with what
    was staged in it: the file system left is the one the metadata process
    left, without the staging directory. *)
Theorem metadata_failure_discards_staged url config resolution
    startTime endTime chapter σ :
  let tmp := staging_of config in
  let args := args_of url resolution startTime endTime chapter in
  let download :=
    child_process (spawned σ) "yt-dlp" args (Some tmp) (fs (staged tmp σ)) in
  let metadata :=
    child_process (S (spawned σ)) "yt-dlp" ["--print-json"; url] None
      (fs_after download) in
  truthy chapter = true ->
  code download = Some 0 ->
  code metadata ≠ Some 0 ->
  downloadVideo url config resolution startTime endTime chapter σ =
  (Throw (Error ("Failed with exit code: " +:+ show_code (code metadata)
                 +:+ nl +:+ "Stdout: " +:+ stdout (output metadata)
                 +:+ nl +:+ "Stderr: " +:+ stderr (output metadata))),
   {| fs := delete tmp (fs_after metadata);
      spawned := S (S (spawned σ));
      trace :=
        trace (staged tmp σ)
        ++ [Spawn "yt-dlp" args (Some tmp)]
        ++ (if String.eqb (stderr (output download)) "" then []
            else [ConsoleError ["yt-dlp stderr:"; stderr (output download)]])
        ++ [Spawn "yt-dlp" ["--print-json"; url] None]
        ++ match fs_after metadata !! tmp with
           | Some _ => [Rm tmp]
           | None => []
           end |}).
Proof.
  intros tmp args download metadata Hch Hdl Hmeta.
  unfold downloadVideo, try_finally, try_catch, downloadBody.
  fold tmp. unfold mbind at 1, M_bind at 1.
  rewrite runStages_unfold. fold args.
  unfold mbind at 1, M_bind at 1.
  rewrite runDownloader_zero; rewrite staged_spawned; fold download; [|done].
  rewrite Hch. unfold splitChapters, mbind, M_bind, _spawnPromise. cbn.
  fold metadata. rewrite bool_decide_eq_false_2 by done. cbn.
  unfold cleanup, mbind, M_bind, existsSync, rmSync, throw. cbn.
  destruct (fs_after metadata !! tmp) as [entries|] eqn:Htmp.
  - rewrite bool_decide_eq_true_2 by eauto. cbn.
    by rewrite <- !app_assoc.
  - rewrite bool_decide_eq_false_2 by (intros [? ?]; done). cbn.
    rewrite delete_id by done. by rewrite <- !app_assoc.
Qed.

(** C8. The downloader run returns exactly when the child process exits
    with status zero.  On status zero what it wrote on standard error is
    logged and nothing is thrown.  On any other status the call throws the
    download failure, whose message ends with the captured standard
    error. *)
Theorem downloader_exit_status url config resolution
    startTime endTime chapter σ :
  let tmp := staging_of config in
  let args := args_of url resolution startTime endTime chapter in
  let process :=
    child_process (spawned σ) "yt-dlp" args (Some tmp) (fs (staged tmp σ)) in
  let stage := runDownloader args tmp (staged tmp σ) in
  ((exists σ1, stage = (Return tt, σ1)) <-> code process = Some 0) /\
  (code process = Some 0 ->
     stage =
     (Return tt,
      {| fs := fs_after process;
         spawned := S (spawned σ);
         trace :=
           (trace (staged tmp σ) ++ [Spawn "yt-dlp" args (Some tmp)])
           ++ (if String.eqb (stderr (output process)) "" then []
               else [ConsoleError ["yt-dlp stderr:";
                                   stderr (output process)]]) |})) /\
  (code process ≠ Some 0 ->
     exists σ',
       downloadVideo url config resolution startTime endTime chapter σ =
       (Throw (Error ("Download failed: " +:+
                      ("Failed with exit code: " +:+ show_code (code process)
                       +:+ nl +:+ "Stdout: " +:+ stdout (output process)
                       +:+ nl +:+ "Stderr: " +:+ stderr (output process)))),
        σ')).
Proof.
  intros tmp args process stage.
  assert (Hzero : code process = Some 0 ->
            stage =
            (Return tt,
             {| fs := fs_after process;
                spawned := S (spawned σ);
                trace :=
                  (trace (staged tmp σ) ++ [Spawn "yt-dlp" args (Some tmp)])
                  ++ (if String.eqb (stderr (output process)) "" then []
                      else [ConsoleError ["yt-dlp stderr:";
                                          stderr (output process)]]) |})).
  { intros Hcode. subst stage.
    rewrite runDownloader_zero; rewrite staged_spawned; [reflexivity|done]. }
  split; [|split; [exact Hzero|]].
  - split; [|intros Hcode; rewrite Hzero by done; eauto].
    intros [σ1 Hstage].
    destruct (decide (code process = Some 0)) as [|Hnz]; [done|].
    subst stage. rewrite runDownloader_nonzero in Hstage;
      rewrite staged_spawned in *; [discriminate|done].
  - intros Hnz.
    unfold downloadVideo, try_finally, try_catch, downloadBody.
    fold tmp. unfold mbind at 1, M_bind at 1.
    rewrite runStages_unfold. fold args.
    unfold mbind at 1, M_bind at 1.
    rewrite runDownloader_nonzero; rewrite staged_spawned; fold process;
      [|done].
    unfold throw.
    pose proof (cleanup_returns tmp
      {| fs := fs_after process;
         spawned := S (spawned σ);
         trace := trace (staged tmp σ) ++ [Spawn "yt-dlp" args (Some tmp)] |})
      as Hret.
    destruct (cleanup tmp _) as [[[]|e] σ2]; [eauto|discriminate].
Qed.

Lemma find_none {A} (f : A -> bool) (l : list A) :
  (forall x, x ∈ l -> f x = false) -> List.find f l = None.
Proof.
  induction l as [|x l IH]; intros Hall; [done|]. cbn.
  rewrite (Hall x) by left. apply IH. intros y Hy. apply Hall. by right.
Qed.

(** A selected chapter, with the staging directory there: [ffmpeg] is run
    on the path made for the full video, writing to the chapter's path, and
    the step returns whatever [ffmpeg] does. *)
Lemma splitChapter_selected tmp chapter videoInfo chap σ entries :
  (forall a b, path_join a b ≠ "") ->
  String.eqb chapter "all" || String.eqb (title chap) chapter = true ->
  fs σ !! tmp = Some entries ->
  exists σ' log,
    splitChapter tmp chapter videoInfo chap σ = (Return tt, σ') /\
    trace σ' =
    trace σ ++
    Spawn "ffmpeg"
      [ "-i"; path_join tmp (default "" (List.find is_video entries));
        "-ss"; String_of (start_time chap);
        "-to"; String_of (end_time chap);
        "-c"; "copy";
        path_join tmp
          (video_title videoInfo +:+ " - " +:+ title chap +:+ ".mp4") ]
      None :: log /\
    forallb is_console log = true.
Proof.
  intros Hjoin Hsel Htmp. unfold splitChapter. rewrite Hsel.
  unfold mbind at 1, M_bind at 1, readdirSync. rewrite Htmp.
  rewrite (proj2 (String.eqb_neq _ _)) by apply Hjoin.
  unfold try_catch, mbind, M_bind, _spawnPromise.
  case bool_decide.
  - destruct (String.eqb (stderr _) ""); cbn.
    + eexists _, []. repeat split.
    + eexists _, [_]. split; [reflexivity|].
      split; [cbn; by rewrite <- app_assoc|reflexivity].
  - cbn. eexists _, [_]. split; [reflexivity|].
    split; [cbn; by rewrite <- app_assoc|reflexivity].
Qed.

(** C9 (as the code has it).  For a chapter selected by the filter, the
    output path handed to the media-trimming tool is, in the staging
    directory, [<video title> - <chapter title>.mp4], whatever the
    container of the staged full video. *)
Theorem chapter_output_name tmp chapter videoInfo chap σ entries :
  (forall a b, path_join a b ≠ "") ->
  chapter = "all" \/ title chap = chapter ->
  fs σ !! tmp = Some entries ->
  ffmpeg_outputs
    (drop (length (trace σ))
       (trace (splitChapter tmp chapter videoInfo chap σ).2)) =
  [path_join tmp (video_title videoInfo +:+ " - " +:+ title chap +:+ ".mp4")].
Proof.
  intros Hjoin Hsel Htmp.
  destruct (splitChapter_selected tmp chapter videoInfo chap σ entries)
    as (σ' & log & Hrun & Htrace & Hlog); [done| |done|].
  { apply orb_true_iff. destruct Hsel as [->| ->]; [left|right];
      apply String.eqb_refl. }
  rewrite Hrun. cbn [snd]. rewrite Htrace, drop_app_length. cbn.
  clear Htrace. induction log as [|ev log IH]; [done|].
  cbn in Hlog. apply andb_true_iff in Hlog as [Hev Hlog].
  destruct ev; try done; cbn; auto.
Qed.

(** C10. With the two facts of [path.join] that matter here (its result
    is never empty; joining a joined path with the empty string gives it
    back), a selected chapter in a staging directory holding no [.mp4] or
    [.webm] entry does not raise the full-video error: the candidate path is
    the staging directory itself, which is not empty, and [ffmpeg] is run
    with it as input. *)
Theorem full_video_guard_never_fires config chapter videoInfo chap σ entries :
  (forall a b, path_join a b ≠ "") ->
  (forall a b, path_join (path_join a b) "" = path_join a b) ->
  let tmp := staging_of config in
  chapter = "all" \/ title chap = chapter ->
  fs σ !! tmp = Some entries ->
  (forall f, f ∈ entries -> is_video f = false) ->
  path_join tmp (default "" (List.find is_video entries)) = tmp /\
  tmp ≠ "" /\
  exists σ' log,
    splitChapter tmp chapter videoInfo chap σ = (Return tt, σ') /\
    trace σ' =
    trace σ ++
    Spawn "ffmpeg"
      [ "-i"; tmp;
        "-ss"; String_of (start_time chap);
        "-to"; String_of (end_time chap);
        "-c"; "copy";
        path_join tmp
          (video_title videoInfo +:+ " - " +:+ title chap +:+ ".mp4") ]
      None :: log /\
    forallb is_console log = true.
Proof.
  intros Hjoin Hnorm tmp Hsel Htmp Hnone.
  assert (Hfull : path_join tmp (default "" (List.find is_video entries))
                  = tmp).
  { rewrite (find_none _ _ Hnone). apply Hnorm. }
  split; [exact Hfull|]. split; [apply Hjoin|].
  destruct (splitChapter_selected tmp chapter videoInfo chap σ entries)
    as (σ' & log & Hrun & Htrace & Hlog); [done| |done|].
  { apply orb_true_iff. destruct Hsel as [->| ->]; [left|right];
      apply String.eqb_refl. }
  rewrite Hfull in Htrace. eauto.
Qed.

(** The full-video error is raised on no input at all. *)
Lemma full_video_error_unreachable tmp chapter videoInfo chap σ :
  (forall a b, path_join a b ≠ "") ->
  (splitChapter tmp chapter videoInfo chap σ).1 ≠
  Throw (Error
    "Full video not found in temporary directory for chapter splitting.").
Proof.
  intros Hjoin. unfold splitChapter.
  destruct (_ || _); [|done].
  unfold mbind at 1, M_bind at 1, readdirSync.
  destruct (fs σ !! tmp) as [entries|]; [|done].
  rewrite (proj2 (String.eqb_neq _ _)) by apply Hjoin.
  unfold try_catch, mbind, M_bind, _spawnPromise.
  case bool_decide; [destruct (String.eqb (stderr _) "")|]; done.
Qed.

End WorkflowFacts.

(** ** POSIX paths *)

Module PosixFacts.
Import Posix.

Lemma app_cons (c : Ascii.ascii) (s r : string) :
  String c s +:+ r = String c (s +:+ r).
Proof. reflexivity. Qed.

Lemma app_empty_l (r : string) : "" +:+ r = r.
Proof. reflexivity. Qed.

Lemma app_assoc_string (a b c : string) : (a +:+ b) +:+ c = a +:+ (b +:+ c).
Proof. induction a as [|x a IH]; [done|]. by rewrite !app_cons, IH. Qed.

Lemma split_no_slash (path : string) :
  Forall (fun s => no_slash s = true) (split path).
Proof.
  induction path as [|c path IH]; cbn; [by constructor|].
  destruct (Ascii.eqb c slash) eqn:Hc; [by constructor|].
  destruct (split path) as [|segment segments];
    [by repeat constructor; cbn; rewrite Hc|].
  inversion IH; subst. constructor; [|done]. cbn. by rewrite Hc.
Qed.

Lemma split_app (s r : string) :
  no_slash s = true -> split (s +:+ "/" +:+ r) = s :: split r.
Proof.
  induction s as [|c s IH]; intros Hs; [done|].
  cbn in Hs. apply andb_true_iff in Hs as [Hc Hs].
  apply negb_true_iff in Hc. rewrite app_cons. cbn. rewrite Hc.
  by rewrite IH.
Qed.

Lemma split_single (s : string) : no_slash s = true -> split s = [s].
Proof.
  induction s as [|c s IH]; intros Hs; [done|].
  cbn in Hs. apply andb_true_iff in Hs as [Hc Hs].
  apply negb_true_iff in Hc. cbn. rewrite Hc. by rewrite IH.
Qed.

Lemma split_concat (segments : list string) :
  segments ≠ [] -> Forall (fun s => no_slash s = true) segments ->
  split (String.concat "/" segments) = segments.
Proof.
  induction segments as [|s segments IH]; [done|]. intros _ Hall.
  inversion Hall as [|? ? Hs Hrest]; subst.
  destruct segments as [|s' segments]; cbn.
  - by apply split_single.
  - change (split (s +:+ "/" +:+ String.concat "/" (s' :: segments))
            = s :: s' :: segments).
    rewrite split_app by done. by rewrite IH.
Qed.


Lemma resolve_ordinary allowAboveRoot res segment :
  ordinary segment -> resolve allowAboveRoot res segment = segment :: res.
Proof.
  intros (_ & H1 & H2 & H3). unfold resolve.
  apply String.eqb_neq in H1, H2, H3. by rewrite H1, H2, H3.
Qed.

Lemma resolve_kept allowAboveRoot res segment :
  kept allowAboveRoot res -> no_slash segment = true ->
  kept allowAboveRoot (resolve allowAboveRoot res segment).
Proof.
  intros (norms & ups & -> & Hn & Hu & Hallow) Hseg. unfold resolve.
  destruct (String.eqb_spec segment "") as [|H1]; [by exists norms, ups|].
  destruct (String.eqb_spec segment ".") as [|H2]; [by exists norms, ups|].
  cbn. destruct (String.eqb_spec segment "..") as [->|H3].
  - destruct norms as [|n norms]; cbn.
    + destruct ups as [|u ups].
      * destruct allowAboveRoot; [|by exists [], []].
        exists [], [".."]. repeat split; [done|by repeat constructor|done].
      * inversion Hu; subst. cbn.
        destruct allowAboveRoot; [|by specialize (Hallow eq_refl)].
        exists [], (".." :: ".." :: ups).
        repeat split; [done|by repeat constructor|done].
    + inversion Hn as [|? ? Hord Hn']; subst.
      destruct Hord as (? & ? & ? & Hdd). apply String.eqb_neq in Hdd.
      rewrite Hdd. by exists norms, ups.
  - exists (segment :: norms), ups. repeat split; try done.
    constructor; [|done]. by repeat split.
Qed.

Lemma fold_kept allowAboveRoot segments res :
  kept allowAboveRoot res ->
  Forall (fun s => no_slash s = true) segments ->
  kept allowAboveRoot (fold_left (resolve allowAboveRoot) segments res).
Proof.
  revert res. induction segments as [|s segments IH]; intros res Hres Hall;
    [done|].
  inversion Hall; subst. cbn. apply IH; [|done]. by apply resolve_kept.
Qed.

Lemma fold_ups ups res :
  Forall (fun s => s = "..") ups -> Forall (fun s => s = "..") res ->
  fold_left (resolve true) ups res = reverse ups ++ res.
Proof.
  revert res. induction ups as [|u ups IH]; intros res Hu Hres; [done|].
  inversion Hu; subst. rewrite reverse_cons, <- app_assoc. cbn.
  rewrite <- IH; [|done|].
  - f_equal. destruct res as [|r res]; [done|]. by inversion Hres; subst.
  - by constructor.
Qed.

Lemma fold_norms allowAboveRoot norms res :
  Forall ordinary norms ->
  fold_left (resolve allowAboveRoot) norms res = reverse norms ++ res.
Proof.
  revert res. induction norms as [|n norms IH]; intros res Hn; [done|].
  inversion Hn; subst. rewrite reverse_cons, <- app_assoc. cbn.
  rewrite resolve_ordinary by done. by apply IH.
Qed.

Lemma fold_blank allowAboveRoot blanks res :
  Forall (fun s => s = "") blanks ->
  fold_left (resolve allowAboveRoot) blanks res = res.
Proof.
  revert res. induction blanks as [|b blanks IH]; intros res Hb; [done|].
  inversion Hb; subst. cbn. by apply IH.
Qed.

(** Folding over kept segments, in order, keeps them all. *)
Lemma fold_reverse_kept allowAboveRoot res :
  kept allowAboveRoot res ->
  fold_left (resolve allowAboveRoot) (reverse res) [] = res.
Proof.
  intros (norms & ups & -> & Hn & Hu & Hallow).
  rewrite reverse_app, fold_left_app.
  destruct allowAboveRoot.
  - rewrite (fold_ups (reverse ups) []); [|by apply Forall_reverse|done].
    rewrite fold_norms by (by apply Forall_reverse).
    by rewrite !reverse_involutive, app_nil_r.
  - rewrite (Hallow eq_refl). cbn.
    rewrite fold_norms by (by apply Forall_reverse).
    by rewrite reverse_involutive.
Qed.

Lemma kept_no_slash allowAboveRoot res :
  kept allowAboveRoot res -> Forall (fun s => no_slash s = true) res.
Proof.
  intros (norms & ups & -> & Hn & Hu & _). apply Forall_app. split.
  - eapply Forall_impl; [exact Hn|]. by intros s (? & _).
  - eapply Forall_impl; [exact Hu|]. by intros s ->.
Qed.

Lemma kept_not_blank allowAboveRoot res :
  kept allowAboveRoot res -> Forall (fun s => s ≠ "") res.
Proof.
  intros (norms & ups & -> & Hn & Hu & _). apply Forall_app. split.
  - eapply Forall_impl; [exact Hn|]. by intros s (_ & ? & _).
  - eapply Forall_impl; [exact Hu|]. by intros s ->.
Qed.

(** ** Joining segments *)

Lemma concat_cons (s s' : string) (segments : list string) :
  String.concat "/" (s :: s' :: segments) =
  s +:+ "/" +:+ String.concat "/" (s' :: segments).
Proof. reflexivity. Qed.

Lemma concat_snoc_blank (segments : list string) :
  segments ≠ [] ->
  String.concat "/" (segments ++ [""]) = String.concat "/" segments +:+ "/".
Proof.
  induction segments as [|s segments IH]; [done|]. intros _.
  destruct segments as [|s' segments]; [done|].
  change ((s :: s' :: segments) ++ [""]) with (s :: s' :: (segments ++ [""])).
  rewrite !concat_cons.
  change (s' :: segments ++ [""]) with ((s' :: segments) ++ [""]).
  rewrite IH by done. by rewrite !app_assoc_string.
Qed.

Lemma concat_not_blank (segments : list string) :
  segments ≠ [] -> Forall (fun s => s ≠ "") segments ->
  String.concat "/" segments ≠ "".
Proof.
  destruct segments as [|s segments]; [done|]. intros _ Hall.
  inversion Hall; subst. destruct s as [|c s]; [done|].
  by destruct segments.
Qed.

Lemma starts_concat (s : string) (segments : list string) :
  s ≠ "" -> no_slash s = true ->
  starts_with_slash (String.concat "/" (s :: segments)) = false.
Proof.
  intros Hs Hns. destruct s as [|c s]; [done|].
  cbn in Hns. apply andb_true_iff in Hns as [Hc _].
  apply negb_true_iff in Hc. by destruct segments.
Qed.

Lemma ends_app (x s : string) :
  s ≠ "" -> ends_with_slash (x +:+ s) = ends_with_slash s.
Proof.
  intros Hs. induction x as [|c x IH]; [done|]. rewrite app_cons.
  cbn. destruct (x +:+ s) eqn:Hx; [|done].
  destruct x; [|done]. cbn in Hx. by subst.
Qed.

Lemma ends_no_slash (s : string) :
  no_slash s = true -> ends_with_slash s = false.
Proof.
  induction s as [|c s IH]; [done|]. cbn. intros Hs.
  apply andb_true_iff in Hs as [Hc Hs]. apply negb_true_iff in Hc.
  destruct s; [done|]. by apply IH.
Qed.

Lemma app_not_blank (x r : string) : r ≠ "" -> x +:+ r ≠ "".
Proof. intros Hr. destruct x; [done|]. by rewrite app_cons. Qed.

Lemma concat_snoc_not_blank (segments : list string) (s : string) :
  s ≠ "" -> String.concat "/" (segments ++ [s]) ≠ "".
Proof.
  intros Hs. destruct segments as [|x segments]; [done|].
  destruct (segments ++ [s]) as [|y rest] eqn:Hl; [by destruct segments|].
  change ((x :: segments) ++ [s]) with (x :: (segments ++ [s])).
  rewrite Hl, concat_cons. by apply app_not_blank.
Qed.

Lemma ends_concat (segments : list string) (s : string) :
  s ≠ "" -> no_slash s = true ->
  ends_with_slash (String.concat "/" (segments ++ [s])) = false.
Proof.
  intros Hs Hns. induction segments as [|x segments IH].
  - by apply ends_no_slash.
  - pose proof (concat_snoc_not_blank segments s Hs) as Hne.
    change ((x :: segments) ++ [s]) with (x :: (segments ++ [s])).
    destruct (segments ++ [s]) as [|y rest] eqn:Hl; [by destruct segments|].
    rewrite concat_cons, ends_app by (by apply app_not_blank).
    change ("/" +:+ String.concat "/" (y :: rest))
      with (String slash (String.concat "/" (y :: rest))).
    cbn [ends_with_slash].
    by destruct (String.concat "/" (y :: rest)).
Qed.


(** ** [normalize] is idempotent and never empty *)

Lemma assemble_not_blank isAbsolute trailingSeparator path :
  assemble isAbsolute trailingSeparator path ≠ "".
Proof.
  unfold assemble. destruct (String.eqb_spec path "") as [->|Hp].
  - by destruct isAbsolute, trailingSeparator.
  - destruct isAbsolute, trailingSeparator; try done.
    + intros H. by apply (app_not_blank path "/").
Qed.

Lemma normalize_not_blank (path : string) : normalize path ≠ "".
Proof.
  unfold normalize. destruct (String.eqb path ""); [done|].
  apply assemble_not_blank.
Qed.

Lemma assemble_normalize isAbsolute trailingSeparator res :
  kept (negb isAbsolute) res ->
  let path :=
    assemble isAbsolute trailingSeparator
      (String.concat "/" (reverse res)) in
  normalize path = path.
Proof.
  intros Hkept path.
  destruct (decide (res = [])) as [->|Hres].
  { subst path. by destruct isAbsolute, trailingSeparator. }
  assert (Hne : reverse res ≠ []).
  { intros Hrev. apply Hres. apply (f_equal reverse) in Hrev.
    by rewrite reverse_involutive in Hrev. }
  pose proof (kept_no_slash _ _ Hkept) as Hns.
  pose proof (kept_not_blank _ _ Hkept) as Hnb.
  apply Forall_reverse in Hns, Hnb.
  pose proof (concat_not_blank _ Hne Hnb) as Hp.
  set (segments := reverse res) in *.
  set (p := String.concat "/" segments) in *.
  assert (Hpath : path =
    (if isAbsolute then "/" else "") +:+
    String.concat "/" (segments ++ if trailingSeparator then [""] else [])).
  { subst path. unfold assemble. apply String.eqb_neq in Hp. rewrite Hp.
    destruct trailingSeparator.
    - rewrite concat_snoc_blank by done. by destruct isAbsolute.
    - rewrite app_nil_r. by destruct isAbsolute. }
  assert (Hall : Forall (fun s => no_slash s = true)
                   (segments ++ if trailingSeparator then [""] else [])).
  { apply Forall_app. split; [done|].
    destruct trailingSeparator; by repeat constructor. }
  assert (Hne' : segments ++ (if trailingSeparator then [""] else []) ≠ []).
  { by destruct segments. }
  assert (Hsplit : fold_left (resolve (negb isAbsolute)) (split path) [] = res).
  { rewrite Hpath.
    assert (Hfold :
      fold_left (resolve (negb isAbsolute))
        (segments ++ if trailingSeparator then [""] else []) [] = res).
    { rewrite fold_left_app. subst segments.
      rewrite fold_reverse_kept by done. by destruct trailingSeparator. }
    destruct isAbsolute.
    - change (split ("/" +:+ ?x)) with ("" :: split x).
      rewrite split_concat by done. exact Hfold.
    - rewrite app_empty_l, split_concat by done. exact Hfold. }
  assert (Hstart : starts_with_slash path = isAbsolute).
  { rewrite Hpath. destruct isAbsolute; [done|]. rewrite app_empty_l.
    destruct segments as [|s segments']; [done|].
    inversion Hns; inversion Hnb; subst. by apply starts_concat. }
  assert (Hend : ends_with_slash path = trailingSeparator).
  { subst path. unfold assemble. apply String.eqb_neq in Hp. rewrite Hp.
    destruct trailingSeparator.
    - destruct isAbsolute;
        rewrite ?(ends_app "/" (p +:+ "/")) by (by apply app_not_blank);
        by rewrite (ends_app p "/").
    - destruct (reverse segments) as [|s rest] eqn:Hrev.
      { apply (f_equal reverse) in Hrev. rewrite reverse_involutive in Hrev.
        done. }
      assert (Hseg : segments = reverse rest ++ [s]).
      { apply (f_equal reverse) in Hrev. rewrite reverse_involutive in Hrev.
        by rewrite Hrev, reverse_cons. }
      assert (Hs : s ≠ "" /\ no_slash s = true).
      { rewrite Hseg in Hns, Hnb.
        apply Forall_app in Hns as [_ Hns]. apply Forall_app in Hnb as [_ Hnb].
        apply Forall_inv in Hns, Hnb. done. }
      destruct Hs as [Hs1 Hs2].
      assert (Hep : ends_with_slash p = false).
      { unfold p. rewrite Hseg. by apply ends_concat. }
      destruct isAbsolute; [|done].
      rewrite ends_app; [exact Hep|by apply String.eqb_neq]. }
  unfold normalize. rewrite (proj2 (String.eqb_neq _ _))
    by (subst path; apply assemble_not_blank).
  unfold normalizeString. rewrite Hstart, Hend, Hsplit. reflexivity.
Qed.

Lemma normalize_idempotent (path : string) :
  normalize (normalize path) = normalize path.
Proof.
  unfold normalize at 2 3. destruct (String.eqb path ""); [done|].
  unfold normalizeString. apply assemble_normalize.
  apply fold_kept; [|apply split_no_slash].
  by exists [], [].
Qed.

Lemma join_not_blank (a b : string) : join a b ≠ "".
Proof.
  unfold join. case String.eqb; [done|]. apply normalize_not_blank.
Qed.

Lemma join_join_blank (a b : string) : join (join a b) "" = join a b.
Proof.
  pose proof (join_not_blank a b) as Hne. apply String.eqb_neq in Hne.
  unfold join at 1. rewrite Hne. cbn. rewrite Hne.
  unfold join. case String.eqb; [done|]. apply normalize_idempotent.
Qed.

End PosixFacts.

(** ** The statements at work on the concrete platform *)

Import Scenario.

(** [invalid-url] is rejected by [new URL], yet the staging directory is
    created and the downloader is spawned on it. *)
Lemma invalid_url_reaches_downloader_witness :
  @validateUrl posix "invalid-url" = false /\
  begins_with (run always_fails "invalid-url" None None None None) start
    [ Mkdir staging;
      Spawn "yt-dlp"
        [ "--progress"; "--newline"; "--no-mtime"; "invalid-url"; "-f";
          "bestvideo[height>=720]+bestaudio/best[height>=720]/best" ]
        (Some staging) ].
Proof.
  split; [reflexivity|].
  apply (@invalid_url_reaches_downloader posix always_fails
           "invalid-url" config None None None None start);
    reflexivity.
Defined.

(** A YouTube URL at 1080p. *)
Lemma selectFormat_table_witness :
  @selectFormat posix youtube "1080p" =
  "bestvideo[height<=1080]+bestaudio/best[height<=1080]/best".
Proof.
  refine (proj1 (proj2 (proj2 (proj1
    (@selectFormat_table posix youtube {| hostname := "www.youtube.com" |}
       (Some "1080p") eq_refl) eq_refl))) eq_refl).
Defined.

(** The time-range scenario: no [-f] and no format expression. *)
Lemma format_flag_omitted_witness :
  let args :=
    buildDownloadArgs youtube (@selectFormat posix youtube "720p")
      (Some "00:00:05") (Some "00:00:10") None in
  ("-f" ∉ args) /\ (@selectFormat posix youtube "720p" ∉ args).
Proof.
  refine (proj1 (proj2
    (@format_flag_omitted posix youtube "720p"
       (Some "00:00:05") (Some "00:00:10") None)) eq_refl _ _);
    vm_compute; discriminate.
Defined.

(** The downloader reports success and writes nothing. *)
Lemma no_output_is_a_failure_witness :
  (run writes_nothing youtube None None None None start).1 =
  Throw (Error "No files were downloaded by yt-dlp.").
Proof.
  unfold run.
  rewrite (@no_output_is_a_failure posix writes_nothing
             youtube config None None None None start
             {| fs := <[staging := []]> disk;
                spawned := 1;
                trace :=
                  [ Mkdir staging;
                    Spawn "yt-dlp"
                      (buildDownloadArgs youtube
                         (@selectFormat posix youtube "720p") None None None)
                      (Some staging);
                    ConsoleError
                      ["yt-dlp stderr:"; "WARNING: nothing to do"] ] |});
    reflexivity.
Defined.

(** The download stages [video.mp4], then the metadata process exits
    with status 1: the call fails and the downloads directory is left
    without [video.mp4]. *)
Lemma metadata_failure_discards_staged_witness :
  exists σ',
    run metadata_fails youtube None None None (Some "Intro") start =
    (Throw (Error ("Failed with exit code: 1" +:+ nl +:+ "Stdout: " +:+ nl
                   +:+ "Stderr: ERROR: no metadata")), σ') /\
    fs σ' = disk.
Proof.
  eexists. unfold run.
  rewrite (@metadata_failure_discards_staged posix metadata_fails
             youtube config None None None (Some "Intro") start);
    [split; reflexivity|reflexivity|reflexivity|vm_compute; discriminate].
Defined.

(** C7, as stated, fails: in the world where [video.mp4] was staged and
    the metadata process then exits with status 1, it is not the case that
    the call fails and [video.mp4] is in the downloads directory. *)
Lemma staged_video_moved_counterexample :
  let result :=
    run metadata_fails youtube None None None (Some "Intro") start in
  ~ ((exists e, result.1 = Throw e) /\
     "video.mp4" ∈ default [] (fs result.2 !! "/home/u/Downloads")).
Proof.
  intros result [_ Hin]. vm_compute in Hin.
  by apply elem_of_nil in Hin.
Qed.

(** A failing downloader. *)
Lemma downloader_exit_status_witness :
  exists σ',
    run always_fails youtube None None None None start =
    (Throw (Error ("Download failed: Failed with exit code: 1" +:+ nl
                   +:+ "Stdout: " +:+ nl
                   +:+ "Stderr: ERROR: unsupported URL")), σ').
Proof.
  refine (proj2 (proj2
    (@downloader_exit_status posix always_fails
       youtube config None None None None start)) _).
  vm_compute. discriminate.
Defined.

(** The staged video is [video.webm]; the chapter is written to a [.mp4]
    path. *)
Lemma chapter_output_name_witness :
  ffmpeg_outputs
    (trace (@splitChapter posix webm_staged staging "Intro" info
              intro_chapter webm_store).2) =
  ["/home/u/Downloads/temp_yt_dlp_downloads/Talk - Intro.mp4"].
Proof.
  refine (@chapter_output_name posix webm_staged staging "Intro" info
            intro_chapter webm_store ["video.webm"]
            PosixFacts.join_not_blank (or_intror eq_refl) eq_refl).
Defined.

(** C9, as stated, fails: with [video.webm] staged, the output handed to
    the media-trimming tool is not [Talk - Intro.webm]. *)
Lemma chapter_output_container_counterexample :
  ffmpeg_outputs
    (trace (run webm_staged youtube None None None (Some "Intro") start).2) ≠
  [Posix.join staging (spec_chapterFileName "Talk" "Intro" "video.webm")].
Proof. vm_compute. discriminate. Qed.

(** C5, as stated, fails: with no time and no chapter requested, the URL
    comes before the pair [-f <format>], not after it. *)
Lemma downloader_arguments_order_counterexample :
  buildDownloadArgs youtube
    "bestvideo[height<=720]+bestaudio/best[height<=720]/best"
    None None None ≠
  spec_downloadArgs youtube
    "bestvideo[height<=720]+bestaudio/best[height<=720]/best"
    None None None.
Proof. vm_compute. discriminate. Qed.

(** Only [notes.txt] is staged: [ffmpeg] gets the staging directory as
    its input. *)
Lemma full_video_guard_never_fires_witness :
  exists σ',
    @splitChapter posix webm_staged staging "all" info intro_chapter
      no_video_store = (Return tt, σ') /\
    trace σ' =
    [ Spawn "ffmpeg"
        [ "-i"; staging; "-ss"; "0"; "-to"; "30"; "-c"; "copy";
          "/home/u/Downloads/temp_yt_dlp_downloads/Talk - Intro.mp4" ]
        None ].
Proof.
  destruct (@full_video_guard_never_fires posix webm_staged config "all" info
              intro_chapter no_video_store ["notes.txt"]
              PosixFacts.join_not_blank
              PosixFacts.join_join_blank
              (or_introl eq_refl) eq_refl)
    as (_ & _ & σ' & log & Hrun & Htrace & _).
  - intros f Hf. apply list_elem_of_singleton in Hf as ->. reflexivity.
  - exists σ'. split; [exact Hrun|].
    vm_compute in Hrun. injection Hrun as <-. reflexivity.
Defined.

(** * More properties *)

(** ** Substrings *)

Lemma prefix_app (sub post : string) : String.prefix sub (sub +:+ post) = true.
Proof.
  induction sub as [|c sub IH]; [by destruct post|].
  rewrite PosixFacts.app_cons. cbn.
  by destruct (Ascii.ascii_dec c c).
Qed.

Lemma prefix_inv (sub s : string) :
  String.prefix sub s = true -> exists post, s = sub +:+ post.
Proof.
  revert s. induction sub as [|c sub IH]; intros s Hp; [by exists s|].
  destruct s as [|d s]; [done|]. cbn in Hp.
  destruct (Ascii.ascii_dec c d) as [->|]; [|done].
  destruct (IH s Hp) as [post ->]. by exists post.
Qed.

Lemma includes_cons (c : Ascii.ascii) (s sub : string) :
  includes (String c s) sub =
  String.prefix sub (String c s) || includes s sub.
Proof. reflexivity. Qed.

Lemma endsWith_cons (c : Ascii.ascii) (s suf : string) :
  endsWith (String c s) suf =
  String.eqb (String c s) suf || endsWith s suf.
Proof. reflexivity. Qed.

(** [includes] finds exactly the substrings. *)
Lemma includes_spec (s sub : string) :
  includes s sub = true <-> exists pre post, s = pre +:+ sub +:+ post.
Proof.
  split.
  - induction s as [|c s IH]; intros Hin.
    + destruct sub; [by exists "", ""|done].
    + rewrite includes_cons in Hin.
      apply orb_true_iff in Hin as [Hp|Hin].
      * apply prefix_inv in Hp as [post Hp]. by exists "", post.
      * destruct (IH Hin) as (pre & post & ->). by exists (String c pre), post.
  - intros (pre & post & ->).
    induction pre as [|c pre IH].
    + change ("" +:+ sub +:+ post) with (sub +:+ post).
      destruct (sub +:+ post) as [|d rest] eqn:Hs.
      * by destruct sub.
      * rewrite includes_cons, <- Hs, prefix_app. done.
    + rewrite PosixFacts.app_cons, includes_cons, IH. apply orb_true_r.
Qed.

(** [endsWith] finds exactly the suffixes. *)
Lemma endsWith_spec (s suf : string) :
  endsWith s suf = true <-> exists pre, s = pre +:+ suf.
Proof.
  split.
  - induction s as [|c s IH]; intros He.
    + destruct suf; [by exists ""|done].
    + rewrite endsWith_cons in He.
      apply orb_true_iff in He as [He|He].
      * apply String.eqb_eq in He as <-. by exists "".
      * destruct (IH He) as [pre ->]. by exists (String c pre).
  - intros [pre ->]. induction pre as [|c pre IH].
    + change ("" +:+ suf) with suf.
      destruct suf as [|d suf]; [done|].
      by rewrite endsWith_cons, String.eqb_refl.
    + rewrite PosixFacts.app_cons, endsWith_cons, IH. apply orb_true_r.
Qed.

(** ** Platform detection and format selection, continued *)

Section PlatformFacts.

Context {platform : Platform}.

(** A URL counts as YouTube exactly when it parses and [youtube.com] or
    [youtu.be] occurs anywhere in its hostname, whatever surrounds it. *)
Theorem isYouTubeUrl_substring (url : string) :
  isYouTubeUrl url = true <->
  exists parsedUrl pre post,
    URL_new url = Some parsedUrl /\
    (hostname parsedUrl = pre +:+ "youtube.com" +:+ post \/
     hostname parsedUrl = pre +:+ "youtu.be" +:+ post).
Proof.
  unfold isYouTubeUrl. destruct (URL_new url) as [parsedUrl|]; split.
  - intros [H|H]%orb_true_iff; apply includes_spec in H as (pre & post & H);
      exists parsedUrl, pre, post; auto.
  - intros (u & pre & post & [= <-] & [H|H]); apply orb_true_iff;
      [left|right]; apply includes_spec; eauto.
  - done.
  - by intros (u & pre & post & ? & _).
Qed.

(** A URL that [new URL] rejects is not refused by the format selection:
    it is taken for a site other than YouTube and gets the other-platform
    expressions. *)
Theorem selectFormat_unparsable (url : string) (resolution : option string) :
  URL_new url = None ->
  let format := selectFormat url (default "720p" resolution) in
  (resolution = Some "480p" ->
     format = "worst[height>=480]/best[height<=480]/worst") /\
  (resolution = Some "best" -> format = "bestvideo+bestaudio/best") /\
  (resolution ∉ [Some "480p"; Some "best"] ->
     format = "bestvideo[height>=720]+bestaudio/best[height>=720]/best").
Proof.
  intros Hurl format. subst format.
  unfold selectFormat, isYouTubeUrl. rewrite Hurl.
  repeat split; try (intros ->; reflexivity).
  intros Hother. destruct resolution as [r|]; [|reflexivity].
  change (default "720p" (Some r)) with r.
  apply switch_miss. cbn. intros Hin. apply Hother.
  apply (list_elem_of_fmap_2 Some) in Hin. exact Hin.
Qed.

End PlatformFacts.

(** ** The workflow, continued *)

Lemma commands_app (t1 t2 : list Event) :
  commands (t1 ++ t2) = commands t1 ++ commands t2.
Proof.
  induction t1 as [|ev t1 IH]; [done|]. destruct ev; cbn; by rewrite ?IH.
Qed.

Lemma renames_app (t1 t2 : list Event) :
  renames (t1 ++ t2) = renames t1 ++ renames t2.
Proof.
  induction t1 as [|ev t1 IH]; [done|]. destruct ev; cbn; by rewrite ?IH.
Qed.

Lemma ffmpeg_outputs_app (t1 t2 : list Event) :
  ffmpeg_outputs (t1 ++ t2) = ffmpeg_outputs t1 ++ ffmpeg_outputs t2.
Proof.
  induction t1 as [|ev t1 IH]; [done|].
  destruct ev; cbn; rewrite ?IH; try done.
  case String.eqb; [|done]. by rewrite app_assoc.
Qed.

Lemma ffmpeg_outputs_console (log : list Event) :
  forallb is_console log = true -> ffmpeg_outputs log = [].
Proof.
  induction log as [|ev log IH]; [done|]. cbn.
  intros [Hev Hlog]%andb_true_iff. destruct ev; try done; cbn; auto.
Qed.

Section MoreWorkflowFacts.

Context {platform : Platform} {world : World}.

Local Abbreviation staging_of config :=
  (path_join (downloadsDir (file config)) "temp_yt_dlp_downloads").

Local Abbreviation args_of url resolution startTime endTime chapter :=
  (buildDownloadArgs url (selectFormat url (default "720p" resolution))
     startTime endTime chapter).

(** The message of a successful call. *)
Local Abbreviation done_message dir :=
  ("Video download process initiated to " +:+ dir
   +:+ ". Check the directory for the downloaded file(s).").

(** Moving distinct entries that are all there moves each of them, keeps
    what the destination held, and does nothing else. *)
Lemma for_of_renameSync tmp dir (l : list string) :
  tmp ≠ dir -> NoDup l ->
  forall σ entries,
    fs σ !! tmp = Some entries ->
    (forall f, f ∈ l -> f ∈ entries) ->
    exists σ',
      for_of l (renameSync tmp dir) σ = (Return tt, σ') /\
      (forall f, f ∈ l -> f ∈ default [] (fs σ' !! dir)) /\
      (forall f, f ∈ default [] (fs σ !! dir) ->
                 f ∈ default [] (fs σ' !! dir)) /\
      (forall d, d ≠ tmp -> d ≠ dir -> fs σ' !! d = fs σ !! d) /\
      spawned σ' = spawned σ /\
      trace σ' =
      trace σ ++ map (fun f => Rename (path_join tmp f) (path_join dir f)) l.
Proof.
  intros Hne Hnodup. induction Hnodup as [|x l Hx Hnodup IH];
    intros σ entries Htmp Hin.
  { exists σ. cbn. rewrite app_nil_r. repeat split; try done.
    by intros f Hf%elem_of_nil. }
  cbn [for_of]. unfold mbind at 1, M_bind at 1, renameSync at 1.
  rewrite Htmp, bool_decide_eq_true_2 by (apply Hin; left).
  set (fs1 := <[tmp := remove_entry x entries]> (fs σ)).
  set (fs2 := <[dir := remove_entry x (default [] (fs1 !! dir)) ++ [x]]> fs1).
  set (σ1 := {| fs := fs2; spawned := spawned σ;
                trace := trace σ ++ [Rename (path_join tmp x)
                                       (path_join dir x)] |}).
  assert (Htmp1 : fs σ1 !! tmp = Some (remove_entry x entries)).
  { cbn. unfold fs2, fs1.
    by rewrite lookup_insert_ne, lookup_insert_eq by done. }
  assert (Hdir1 : fs σ1 !! dir =
                  Some (remove_entry x (default [] (fs σ !! dir)) ++ [x])).
  { cbn. unfold fs2. rewrite lookup_insert_eq. unfold fs1.
    by rewrite lookup_insert_ne by done. }
  destruct (IH σ1 (remove_entry x entries) Htmp1)
    as (σ' & Hrun & Hmoved & Hkept & Hother & Hspawned & Htrace).
  { intros f Hf. apply list_elem_of_filter. split; [|apply Hin; by right].
    intros ->. done. }
  exists σ'. split; [exact Hrun|]. repeat split.
  - intros f [->|Hf]%elem_of_cons; [|by apply Hmoved].
    apply Hkept. rewrite Hdir1. cbn. apply elem_of_app. right. by left.
  - intros f Hf. apply Hkept. rewrite Hdir1. cbn. apply elem_of_app.
    destruct (decide (f = x)) as [->|Hfx]; [right; by left|left].
    by apply list_elem_of_filter.
  - intros d Hd1 Hd2. rewrite Hother by done. cbn. unfold fs2, fs1.
    by rewrite !lookup_insert_ne by done.
  - by rewrite Hspawned.
  - rewrite Htrace. cbn. by rewrite <- app_assoc.
Qed.

(** The stages as the downloader run followed by the chapter splitting,
    when the downloader exits with status zero. *)
Lemma runStages_zero url config resolution startTime endTime chapter σ :
  let tmp := staging_of config in
  let args := args_of url resolution startTime endTime chapter in
  let download :=
    child_process (spawned σ) "yt-dlp" args (Some tmp) (fs (staged tmp σ)) in
  code download = Some 0 ->
  runStages url tmp (default "720p" resolution) startTime endTime chapter σ =
  (if truthy chapter then splitChapters url tmp (val chapter) else mret tt)
    (downloaded args tmp download (staged tmp σ)).
Proof.
  intros tmp args download Hcode.
  rewrite runStages_unfold. fold args. unfold mbind at 1, M_bind at 1.
  rewrite runDownloader_zero; rewrite staged_spawned; fold download; [|done].
  unfold downloaded. by rewrite staged_spawned.
Qed.

(** When the downloader has exited with status zero, the chapter
    splitting (if requested) has returned, and the staging directory then
    lists distinct entries, at least one, the call returns its message:
    every staged entry is in the destination directory under its own name,
    what the destination held is still there, the renames are those of the
    staged entries in listing order, and the staging directory is gone. *)
Theorem staged_files_are_moved url config resolution
    startTime endTime chapter σ σ1 files :
  let dir := downloadsDir (file config) in
  let tmp := staging_of config in
  let args := args_of url resolution startTime endTime chapter in
  let download :=
    child_process (spawned σ) "yt-dlp" args (Some tmp) (fs (staged tmp σ)) in
  code download = Some 0 ->
  (if truthy chapter then splitChapters url tmp (val chapter) else mret tt)
    (downloaded args tmp download (staged tmp σ)) = (Return tt, σ1) ->
  fs σ1 !! tmp = Some files ->
  files ≠ [] ->
  NoDup files ->
  tmp ≠ dir ->
  exists σ',
    downloadVideo url config resolution startTime endTime chapter σ =
    (Return (done_message dir), σ') /\
    fs σ' !! tmp = None /\
    (forall f, f ∈ files -> f ∈ default [] (fs σ' !! dir)) /\
    (forall f, f ∈ default [] (fs σ1 !! dir) ->
               f ∈ default [] (fs σ' !! dir)) /\
    trace σ' =
    trace σ1
    ++ map (fun f => Rename (path_join tmp f) (path_join dir f)) files
    ++ [Rm tmp].
Proof.
  intros dir tmp args download Hcode Hsplit Hfiles Hne Hnodup Hdir.
  assert (Hstages :
    runStages url tmp (default "720p" resolution) startTime endTime chapter σ
    = (Return tt, σ1)).
  { unfold tmp. rewrite runStages_zero by done. exact Hsplit. }
  rewrite (downloadVideo_after_stages _ _ _ _ _ _ _ _ Hstages).
  fold tmp. fold dir.
  destruct (for_of_renameSync tmp dir files Hdir Hnodup σ1 files Hfiles)
    as (σ2 & Hrun & Hmoved & Hkept & Hother & Hspawned & Htrace); [done|].
  assert (Htmp2 : is_Some (fs σ2 !! tmp)).
  { destruct files as [|f files']; [done|]. clear Hmoved Hkept Hother Htrace.
    revert Hrun. cbn [for_of]. unfold mbind at 1, M_bind at 1.
    destruct (renameSync tmp dir f σ1) as [[[]|e] σa] eqn:Hfirst; [|done].
    intros Hrest.
    assert (Hgen : forall l σx σy,
              for_of l (renameSync tmp dir) σx = (Return tt, σy) ->
              is_Some (fs σx !! tmp) -> is_Some (fs σy !! tmp)).
    { induction l as [|y l IHl]; intros σx σy Hl Hx.
      - cbn in Hl. by injection Hl as <-.
      - cbn [for_of] in Hl. unfold mbind at 1, M_bind at 1 in Hl.
        destruct (renameSync tmp dir y σx) as [[[]|e] σz] eqn:Hy; [|done].
        apply (IHl σz σy Hl). unfold renameSync in Hy.
        destruct (fs σx !! tmp) as [ex|]; [|done].
        destruct (bool_decide (y ∈ ex)); [|done].
        injection Hy as <-. cbn.
        rewrite lookup_insert_ne, lookup_insert_eq by done. eauto. }
    apply (Hgen files' σa σ2 Hrest). unfold renameSync in Hfirst.
    rewrite Hfiles in Hfirst.
    destruct (bool_decide (f ∈ f :: files')); [|done].
    injection Hfirst as <-. cbn.
    rewrite lookup_insert_ne, lookup_insert_eq by done. eauto. }
  assert (Hmove : moveDownloads dir tmp σ1 = (Return (done_message dir), σ2)).
  { assert (Hrun' : for_of files (fun file => renameSync tmp dir file) σ1
                     = (Return tt, σ2)) by exact Hrun.
    unfold moveDownloads, readdirSync, mbind, M_bind. rewrite Hfiles.
    destruct files as [|f0 files0]; [done|].
    change (length (f0 :: files0) =? 0)%nat with false. cbv beta iota.
    by rewrite Hrun'. }
  unfold try_finally. rewrite Hmove.
  unfold cleanup, mbind, M_bind, mret, M_ret, existsSync, rmSync. cbn.
  rewrite bool_decide_eq_true_2 by done. cbn.
  eexists. split; [reflexivity|]. cbn. repeat split.
  - apply lookup_delete_eq.
  - intros f Hin. rewrite lookup_delete_ne by done. by apply Hmoved.
  - intros f Hin. rewrite lookup_delete_ne by done. by apply Hkept.
  - rewrite Htrace. by rewrite <- app_assoc.
Qed.

(** *** Which processes a call spawns *)

Lemma spawnless_mret {A} (a : A) : spawnless (mret a).
Proof. intros σ. exists []. cbn. by rewrite app_nil_r. Qed.

Lemma spawnless_throw {A} (e : exn) : spawnless (@throw A e).
Proof. intros σ. exists []. cbn. by rewrite app_nil_r. Qed.

Lemma spawnless_bind {A B} (m : M A) (k : A -> M B) :
  spawnless m -> (forall a, spawnless (k a)) -> spawnless (m ≫= k).
Proof.
  intros Hm Hk σ. destruct (Hm σ) as (t & Ht & Hc).
  unfold mbind, M_bind. destruct (m σ) as [[a|e] σ1]; cbn in *.
  - destruct (Hk a σ1) as (t' & Ht' & Hc'). exists (t ++ t').
    rewrite Ht', Ht, <- app_assoc, commands_app, Hc, Hc'. done.
  - by exists t.
Qed.

Lemma spawnless_try_catch {A} (body : M A) (handler : exn -> M A) :
  spawnless body -> (forall e, spawnless (handler e)) ->
  spawnless (try_catch body handler).
Proof.
  intros Hb Hh σ. destruct (Hb σ) as (t & Ht & Hc).
  unfold try_catch. destruct (body σ) as [[a|e] σ1]; cbn in *.
  - by exists t.
  - destruct (Hh e σ1) as (t' & Ht' & Hc'). exists (t ++ t').
    rewrite Ht', Ht, <- app_assoc, commands_app, Hc, Hc'. done.
Qed.

Lemma spawnless_try_finally {A} (body : M A) (final : M unit) :
  spawnless body -> spawnless final -> spawnless (try_finally body final).
Proof.
  intros Hb Hf σ. destruct (Hb σ) as (t & Ht & Hc).
  unfold try_finally. destruct (body σ) as [r σ1]; cbn in *.
  destruct (Hf σ1) as (t' & Ht' & Hc'). exists (t ++ t').
  destruct (final σ1) as [[u|e] σ2]; cbn in *;
    rewrite Ht', Ht, <- app_assoc, commands_app, Hc, Hc'; done.
Qed.

Lemma spawnless_for_of {A} (xs : list A) (body : A -> M unit) :
  (forall x, spawnless (body x)) -> spawnless (for_of xs body).
Proof.
  intros Hb. induction xs as [|x xs IH]; cbn.
  - apply spawnless_mret.
  - apply spawnless_bind; auto.
Qed.

Lemma spawnless_renameSync oldDir newDir name :
  spawnless (renameSync oldDir newDir name).
Proof.
  intros σ. unfold renameSync.
  destruct (fs σ !! oldDir) as [entries|]; [case bool_decide|]; cbn;
    try (exists []; by rewrite app_nil_r).
  by eexists [_].
Qed.

Lemma spawnless_moveDownloads dir tmp : spawnless (moveDownloads dir tmp).
Proof.
  unfold moveDownloads. apply spawnless_bind.
  - intros σ. exists []. unfold readdirSync.
    destruct (fs σ !! tmp); cbn; by rewrite app_nil_r.
  - intros files. destruct (length files =? 0)%nat.
    + apply spawnless_throw.
    + apply spawnless_bind; [|intros; apply spawnless_mret].
      apply spawnless_for_of. intros. apply spawnless_renameSync.
Qed.

Lemma spawnless_cleanup tmp : spawnless (cleanup tmp).
Proof.
  unfold cleanup. apply spawnless_bind.
  - intros σ. exists []. cbn. by rewrite app_nil_r.
  - intros []; [|apply spawnless_mret]. intros σ. by exists [Rm tmp].
Qed.

(** A call, from the outcome of its stages on. *)
Lemma downloadVideo_via_stages url config resolution
    startTime endTime chapter σ :
  let dir := downloadsDir (file config) in
  let tmp := staging_of config in
  downloadVideo url config resolution startTime endTime chapter σ =
  (let '(o, σ1) :=
     runStages url tmp (default "720p" resolution) startTime endTime chapter
       σ in
   try_finally
     (try_catch
        (match o with
         | Return _ => moveDownloads dir tmp
         | Throw e => throw e
         end)
        (fun error => throw error))
     (cleanup tmp) σ1).
Proof.
  cbn zeta. unfold downloadVideo, try_finally, try_catch, downloadBody,
    mbind, M_bind.
  by destruct (runStages _ _ _ _ _ _ σ) as [[[]|e] σ1].
Qed.

(** When no chapter is requested, a call spawns one process, the
    downloader, whatever the outcome: it never runs the media-trimming tool
    and never fetches the metadata. *)
Theorem one_process_without_chapter url config resolution
    startTime endTime chapter σ :
  truthy chapter = false ->
  exists t,
    trace (downloadVideo url config resolution startTime endTime chapter σ).2
    = trace σ ++ t /\
    commands t = ["yt-dlp"].
Proof.
  intros Hch. rewrite downloadVideo_via_stages.
  set (tmp := staging_of config). set (dir := downloadsDir (file config)).
  set (args := args_of url resolution startTime endTime chapter).
  assert (Hstages : exists t1,
    trace (runStages url tmp (default "720p" resolution) startTime endTime
             chapter σ).2 = trace σ ++ t1 /\ commands t1 = ["yt-dlp"]).
  { rewrite runStages_unfold. fold args. rewrite Hch.
    unfold mbind, M_bind.
    destruct (decide (code (child_process (spawned (staged tmp σ)) "yt-dlp"
                              args (Some tmp) (fs (staged tmp σ))) = Some 0))
      as [Hz|Hnz].
    - rewrite runDownloader_zero by done. cbn. rewrite staged_trace.
      eexists. rewrite <- !app_assoc. split; [reflexivity|].
      rewrite !commands_app.
      destruct (fs σ !! tmp); destruct (String.eqb _ ""); reflexivity.
    - rewrite runDownloader_nonzero by done. cbn. rewrite staged_trace.
      eexists. rewrite <- !app_assoc. split; [reflexivity|].
      rewrite !commands_app. by destruct (fs σ !! tmp). }
  destruct Hstages as (t1 & Ht1 & Hc1).
  destruct (runStages _ _ _ _ _ _ σ) as [o σ1]. cbn in Ht1.
  assert (Hrest : spawnless
    (try_finally
       (try_catch
          (match o with
           | Return _ => moveDownloads dir tmp
           | Throw e => throw e
           end)
          (fun error => throw error))
       (cleanup tmp))).
  { apply spawnless_try_finally; [|apply spawnless_cleanup].
    apply spawnless_try_catch; [|intros; apply spawnless_throw].
    destruct o; [apply spawnless_moveDownloads|apply spawnless_throw]. }
  destruct (Hrest σ1) as (t2 & Ht2 & Hc2).
  exists (t1 ++ t2). rewrite Ht2, Ht1, <- app_assoc, commands_app, Hc1, Hc2.
  done.
Qed.

(** *** The loop over the chapters *)

(** The chapters a filter selects (line 126). *)
Local Abbreviation selected chapter chap :=
  (String.eqb chapter "all" || String.eqb (title chap) chapter).

(** The output path of a chapter (lines 127-128). *)
Local Abbreviation chapter_path tmp videoInfo chap :=
  (path_join tmp (video_title videoInfo +:+ " - " +:+ title chap +:+ ".mp4")).

Lemma splitChapter_step tmp chapter videoInfo chap σ :
  (forall a b, path_join a b ≠ "") ->
  (forall n command args cwd fs0,
     is_Some (fs0 !! tmp) ->
     is_Some (fs_after (child_process n command args cwd fs0) !! tmp)) ->
  is_Some (fs σ !! tmp) ->
  exists σ' t,
    splitChapter tmp chapter videoInfo chap σ = (Return tt, σ') /\
    is_Some (fs σ' !! tmp) /\
    trace σ' = trace σ ++ t /\
    ffmpeg_outputs t =
    (if selected chapter chap then [chapter_path tmp videoInfo chap] else []) /\
    commands t = (if selected chapter chap then ["ffmpeg"] else []).
Proof.
  intros Hjoin Hworld [entries Htmp]. unfold splitChapter.
  destruct (selected chapter chap).
  2:{ exists σ, []. cbn. rewrite app_nil_r. eauto 10. }
  unfold mbind at 1, M_bind at 1, readdirSync. rewrite Htmp.
  rewrite (proj2 (String.eqb_neq _ _)) by apply Hjoin.
  unfold try_catch, mbind, M_bind, _spawnPromise.
  set (process := child_process _ _ _ _ _).
  assert (Hkeep : is_Some (fs_after process !! tmp)) by (apply Hworld; eauto).
  case bool_decide; [destruct (String.eqb (stderr (output process)) "")|];
    cbn; eexists _, _; (split; [reflexivity|]); (split; [exact Hkeep|]);
    (split; [cbn; rewrite <- ?app_assoc; reflexivity|]); split; reflexivity.
Qed.

Lemma for_of_splitChapter tmp chapter videoInfo chs :
  (forall a b, path_join a b ≠ "") ->
  (forall n command args cwd fs0,
     is_Some (fs0 !! tmp) ->
     is_Some (fs_after (child_process n command args cwd fs0) !! tmp)) ->
  forall σ,
    is_Some (fs σ !! tmp) ->
    exists σ' t,
      for_of chs (splitChapter tmp chapter videoInfo) σ = (Return tt, σ') /\
      is_Some (fs σ' !! tmp) /\
      trace σ' = trace σ ++ t /\
      ffmpeg_outputs t =
      map (fun chap => chapter_path tmp videoInfo chap)
        (List.filter (fun chap => selected chapter chap) chs) /\
      commands t =
      map (fun _ => "ffmpeg")
        (List.filter (fun chap => selected chapter chap) chs).
Proof.
  intros Hjoin Hworld. induction chs as [|chap chs IH]; intros σ Htmp.
  { exists σ, []. cbn. rewrite app_nil_r. eauto 10. }
  destruct (splitChapter_step tmp chapter videoInfo chap σ Hjoin Hworld Htmp)
    as (σ1 & t1 & Hrun1 & Htmp1 & Ht1 & Ho1 & Hc1).
  destruct (IH σ1 Htmp1) as (σ' & t2 & Hrun2 & Htmp2 & Ht2 & Ho2 & Hc2).
  exists σ', (t1 ++ t2). cbn [for_of]. unfold mbind, M_bind.
  rewrite Hrun1, Hrun2, Ht2, Ht1, <- app_assoc.
  rewrite ffmpeg_outputs_app, commands_app, Ho1, Ho2, Hc1, Hc2.
  repeat split; try done; cbn [List.filter];
    by destruct (selected chapter chap).
Qed.

(** Chapter splitting, when the metadata is fetched and parsed and no
    process removes the staging directory: it returns, whatever the exit
    statuses of the trimming runs.  After the metadata fetch it runs the
    media-trimming tool once for each chapter the filter selects ([all], or
    the chapters whose title is the filter, compared exactly), in metadata
    order, each writing to that chapter's own path; a filter matching no
    chapter, or metadata without chapters, runs it not at all. *)
Theorem chapters_split_in_order url tmp chapter videoInfo σ :
  (forall a b, path_join a b ≠ "") ->
  (forall n command args cwd fs0,
     is_Some (fs0 !! tmp) ->
     is_Some (fs_after (child_process n command args cwd fs0) !! tmp)) ->
  is_Some (fs σ !! tmp) ->
  let metadata :=
    child_process (spawned σ) "yt-dlp" ["--print-json"; url] None (fs σ) in
  let chs := default [] (chapters videoInfo) in
  code metadata = Some 0 ->
  JSON_parse (stdout (output metadata)) = Some videoInfo ->
  exists σ' t,
    splitChapters url tmp chapter σ = (Return tt, σ') /\
    is_Some (fs σ' !! tmp) /\
    trace σ' = trace σ ++ t /\
    ffmpeg_outputs t =
    map (fun chap => chapter_path tmp videoInfo chap)
      (List.filter (fun chap => selected chapter chap) chs) /\
    commands t =
    "yt-dlp" :: map (fun _ => "ffmpeg")
                  (List.filter (fun chap => selected chapter chap) chs).
Proof.
  intros Hjoin Hworld Htmp metadata chs Hcode Hparse.
  unfold splitChapters, mbind, M_bind, _spawnPromise. fold metadata.
  rewrite bool_decide_eq_true_2 by done. rewrite Hparse.
  set (σ0 := {| fs := fs_after metadata; spawned := S (spawned σ);
                trace := trace σ ++ [Spawn "yt-dlp" ["--print-json"; url]
                                       None] |}).
  assert (Htmp0 : is_Some (fs σ0 !! tmp)) by (apply Hworld; done).
  subst chs. destruct (chapters videoInfo) as [[|chap chs]|]; cbn [default].
  - eexists _, _. split; [reflexivity|]. split; [exact Htmp0|].
    split; [cbn; rewrite <- app_assoc; reflexivity|]. split; reflexivity.
  - destruct (for_of_splitChapter tmp chapter videoInfo (chap :: chs)
                Hjoin Hworld σ0 Htmp0)
      as (σ' & t & Hrun & Htmp' & Ht & Ho & Hc).
    exists σ', (Spawn "yt-dlp" ["--print-json"; url] None :: t).
    rewrite Hrun, Ht. cbn [trace σ0]. unfold σ0. cbn [trace].
    rewrite <- app_assoc. cbn. rewrite Ho, Hc. repeat split; done.
  - eexists _, _. split; [reflexivity|]. split; [exact Htmp0|].
    split; [cbn; rewrite <- app_assoc; reflexivity|]. split; reflexivity.
Qed.

Lemma find_first {A} (f : A -> bool) (before after : list A) (x : A) :
  (forall y, y ∈ before -> f y = false) -> f x = true ->
  List.find f (before ++ x :: after) = Some x.
Proof.
  intros Hb Hx. induction before as [|y before IH]; cbn; [by rewrite Hx|].
  rewrite (Hb y) by left. apply IH. intros z Hz. apply Hb. by right.
Qed.

Lemma ffmpeg_inputs_console (log : list Event) :
  forallb is_console log = true -> ffmpeg_inputs log = [].
Proof.
  induction log as [|ev log IH]; [done|]. cbn.
  intros [Hev Hlog]%andb_true_iff. destruct ev; try done; cbn; auto.
Qed.

(** The splitter takes as full video the first staged entry ending in
    [.mp4] or [.webm], and the chapter outputs it has written are such
    entries: when the output of an earlier chapter is listed before any
    other video, that output, not the full video, is the input of the next
    trimming run. *)
Theorem chapter_output_taken_as_input tmp chapter videoInfo
    (chap previous : Chapter number) before after σ :
  (forall a b, path_join a b ≠ "") ->
  chapter = "all" \/ title chap = chapter ->
  fs σ !! tmp =
    Some (before
          ++ (video_title videoInfo +:+ " - " +:+ title previous +:+ ".mp4")
          :: after) ->
  (forall f, f ∈ before -> is_video f = false) ->
  exists t,
    trace (splitChapter tmp chapter videoInfo chap σ).2 = trace σ ++ t /\
    ffmpeg_inputs t = [chapter_path tmp videoInfo previous].
Proof.
  intros Hjoin Hsel Htmp Hbefore.
  assert (Hsel' : selected chapter chap = true).
  { apply orb_true_iff. destruct Hsel as [->| ->]; [left|right];
      apply String.eqb_refl. }
  destruct (splitChapter_selected tmp chapter videoInfo chap σ _ Hjoin
              Hsel' Htmp) as (σ' & log & Hrun & Htrace & Hlog).
  rewrite Hrun. cbn [snd]. eexists. split; [exact Htrace|].
  rewrite find_first; [|done|].
  - cbn. by rewrite ffmpeg_inputs_console.
  - unfold is_video. apply orb_true_iff. left. apply endsWith_spec.
    exists (video_title videoInfo +:+ " - " +:+ title previous).
    by rewrite !PosixFacts.app_assoc_string.
Qed.

End MoreWorkflowFacts.

(** ** [modules/utils] *)

Module UtilsFacts.

Import Utils.

Lemma app_one (c : Ascii.ascii) (s : string) :
  String c EmptyString +:+ s = String c s.
Proof. reflexivity. Qed.

Lemma length_app (a b : string) :
  String.length (a +:+ b) = (String.length a + String.length b)%nat.
Proof.
  induction a as [|c a IH]; [done|]. rewrite PosixFacts.app_cons. cbn. by rewrite IH.
Qed.

Lemma every_app class (a b : string) :
  every class (a +:+ b) = every class a && every class b.
Proof.
  induction a as [|c a IH]; [done|]. rewrite PosixFacts.app_cons. cbn.
  by rewrite IH, andb_assoc.
Qed.

Lemma every_impl (class1 class2 : Ascii.ascii -> bool) (s : string) :
  (forall c, class1 c = true -> class2 c = true) ->
  every class1 s = true -> every class2 s = true.
Proof.
  intros Himpl. induction s as [|c s IH]; [done|]. cbn.
  intros [Hc Hs]%andb_true_iff. by rewrite (Himpl c Hc), IH.
Qed.

Lemma replace_class_app class replacement (a b : string) :
  replace_class class replacement (a +:+ b) =
  replace_class class replacement a +:+ replace_class class replacement b.
Proof.
  induction a as [|c a IH]; [done|]. rewrite PosixFacts.app_cons. cbn.
  destruct (class c); rewrite IH; [|done].
  by rewrite PosixFacts.app_assoc_string.
Qed.

Lemma replace_class_none class replacement (s : string) :
  every (fun c => negb (class c)) s = true ->
  replace_class class replacement s = s.
Proof.
  induction s as [|c s IH]; [done|]. cbn.
  intros [Hc Hs]%andb_true_iff. apply negb_true_iff in Hc.
  by rewrite Hc, IH.
Qed.

Lemma replace_class_every class (r : Ascii.ascii) (s : string) :
  class r = false ->
  every (fun c => negb (class c))
    (replace_class class (String r EmptyString) s) = true.
Proof.
  intros Hr. induction s as [|c s IH]; [done|]. cbn.
  destruct (class c) eqn:Hc; rewrite ?app_one; cbn; by rewrite ?Hr, ?Hc, IH.
Qed.

Lemma replace_class_length class (r : Ascii.ascii) (s : string) :
  String.length (replace_class class (String r EmptyString) s) =
  String.length s.
Proof.
  induction s as [|c s IH]; [done|]. cbn.
  destruct (class c); rewrite ?app_one; cbn; by rewrite IH.
Qed.

Lemma sanitizeFilename_every (filename : string) :
  every is_filename_unit (sanitizeFilename filename) = true.
Proof.
  unfold sanitizeFilename.
  eapply every_impl;
    [|by apply (replace_class_every _ (Ascii.ascii_of_nat 95))].
  intros c Hc. by apply negb_true_iff, negb_false_iff in Hc.
Qed.

(** [sanitizeFilename] keeps the length and leaves only letters, digits,
    [-], [_] and [.]: each other unit becomes one underscore, so runs are
    not merged and nothing is removed. *)
Theorem sanitizeFilename_units (filename : string) :
  String.length (sanitizeFilename filename) = String.length filename /\
  every is_filename_unit (sanitizeFilename filename) = true.
Proof.
  split; [|apply sanitizeFilename_every].
  apply (replace_class_length _ (Ascii.ascii_of_nat 95)).
Qed.

(** [sanitizeFilename] is idempotent, and the names it leaves as they are
    are exactly those made of letters, digits, [-], [_] and [.]; names made
    of dots alone are among them. *)
Theorem sanitizeFilename_fixed (filename : string) :
  sanitizeFilename (sanitizeFilename filename) = sanitizeFilename filename /\
  (sanitizeFilename filename = filename <->
   every is_filename_unit filename = true).
Proof.
  assert (Hfix : forall s, every is_filename_unit s = true ->
                           sanitizeFilename s = s).
  { intros s Hs. apply replace_class_none.
    eapply every_impl; [|exact Hs]. intros c Hc. by rewrite Hc. }
  split; [apply Hfix, sanitizeFilename_every|].
  split; [|apply Hfix].
  intros Heq. rewrite <- Heq. apply sanitizeFilename_every.
Qed.


Lemma sanitizeFilename_id (s : string) :
  every is_filename_unit s = true -> sanitizeFilename s = s.
Proof.
  intros Hs. apply replace_class_none.
  eapply every_impl; [|exact Hs]. intros c Hc. by rewrite Hc.
Qed.

Lemma split_none (separator : Ascii.ascii) (s : string) :
  every (fun c => negb (Ascii.eqb c separator)) s = true ->
  split separator s = [s].
Proof.
  induction s as [|c s IH]; [done|]. cbn.
  intros [Hc Hs]%andb_true_iff. apply negb_true_iff in Hc.
  by rewrite Hc, IH.
Qed.

Lemma split_not_nil (separator : Ascii.ascii) (s : string) :
  split separator s ≠ [].
Proof.
  destruct s as [|c s]; [done|]. cbn.
  destruct (Ascii.eqb c separator); [done|]. by destruct (split separator s).
Qed.

Lemma split_at_separator (separator : Ascii.ascii) (a b : string) :
  split separator (a +:+ String separator b) =
  split separator a ++ split separator b.
Proof.
  induction a as [|c a IH].
  - change ("" +:+ String separator b) with (String separator b).
    cbn. by rewrite Ascii.eqb_refl.
  - rewrite PosixFacts.app_cons. cbn. rewrite IH.
    destruct (Ascii.eqb c separator); [done|].
    pose proof (split_not_nil separator a).
    by destruct (split separator a).
Qed.

Lemma replace_first_every class pattern (r : Ascii.ascii) (s : string) :
  class r = true -> every class s = true ->
  every class (replace_first pattern (String r EmptyString) s) = true.
Proof.
  intros Hr. induction s as [|c s IH]; [done|]. cbn.
  intros [Hc Hs]%andb_true_iff.
  destruct (Ascii.eqb c pattern); rewrite ?app_one; cbn;
    by rewrite ?Hr, ?Hc, ?Hs, ?IH.
Qed.

Lemma replace_first_length pattern (r : Ascii.ascii) (s : string) :
  String.length (replace_first pattern (String r EmptyString) s) =
  String.length s.
Proof.
  induction s as [|c s IH]; [done|]. cbn.
  destruct (Ascii.eqb c pattern); rewrite ?app_one; cbn; by rewrite ?IH.
Qed.

Lemma replace_first_app pattern replacement (a b : string) :
  every (fun c => negb (Ascii.eqb c pattern)) a = true ->
  replace_first pattern replacement (a +:+ String pattern b) =
  a +:+ replacement +:+ b.
Proof.
  induction a as [|c a IH].
  - intros _. change ("" +:+ String pattern b) with (String pattern b).
    cbn. by rewrite Ascii.eqb_refl.
  - cbn. intros [Hc Ha]%andb_true_iff. apply negb_true_iff in Hc.
    rewrite !PosixFacts.app_cons. cbn. by rewrite Hc, IH.
Qed.

(** The split on [.] at the end of [getFormattedTimestamp] cuts nothing:
    no dot is left by then. *)
Lemma getFormattedTimestamp_eq (iso : string) :
  getFormattedTimestamp iso =
  replace_first (Ascii.ascii_of_nat 84) "_"
    (replace_class is_colon_or_dot "-" iso).
Proof.
  unfold getFormattedTimestamp. rewrite split_none; [done|].
  apply (replace_first_every _ _ (Ascii.ascii_of_nat 95)); [done|].
  eapply every_impl;
    [|by apply (replace_class_every _ (Ascii.ascii_of_nat 45))].
  intros c Hc. apply negb_true_iff in Hc. apply negb_true_iff.
  apply orb_false_iff in Hc as [_ Hdot].
  destruct (Ascii.eqb_spec c dot) as [->|]; done.
Qed.

(** [getFormattedTimestamp] returns a text as long as the ISO text of the
    date.  For [<date>T<time>] it is the date, an underscore, and the whole
    time with each [:] and [.] turned into [-]: the fraction of a second and
    the zone letter stay, because the final split on [.] finds no dot
    left. *)
Theorem getFormattedTimestamp_keeps_all (date time : string) :
  every (fun c => negb (Ascii.eqb c (Ascii.ascii_of_nat 84))) date = true ->
  let iso := date +:+ "T" +:+ time in
  getFormattedTimestamp iso =
  replace_class is_colon_or_dot "-" date +:+ "_"
  +:+ replace_class is_colon_or_dot "-" time /\
  String.length (getFormattedTimestamp iso) = String.length iso.
Proof.
  intros Hdate iso. rewrite getFormattedTimestamp_eq. split.
  - subst iso. rewrite replace_class_app.
    change ("T" +:+ time) with (String (Ascii.ascii_of_nat 84) time).
    cbn [replace_class].
    change (is_colon_or_dot (Ascii.ascii_of_nat 84)) with false. cbv iota.
    apply replace_first_app.
    clear -Hdate. induction date as [|c date IH]; [done|]. cbn in *.
    apply andb_true_iff in Hdate as [Hc Hd].
    destruct (is_colon_or_dot c); rewrite ?app_one; cbn;
      by rewrite ?Hc, IH.
  - rewrite (replace_first_length _ (Ascii.ascii_of_nat 95)).
    apply (replace_class_length _ (Ascii.ascii_of_nat 45)).
Qed.

Lemma toString_hex_every (buffer : list Byte.byte) :
  every is_filename_unit (toString_hex buffer) = true.
Proof.
  induction buffer as [|b buffer IH]; [done|].
  cbn [toString_hex every]. rewrite IH.
  by destruct b.
Qed.

Lemma toString_hex_length (buffer : list Byte.byte) :
  String.length (toString_hex buffer) = (2 * length buffer)%nat.
Proof. induction buffer as [|b buffer IH]; [done|]. cbn. rewrite IH. lia. Qed.

(** A generated name whose date text holds only letters, digits, [-],
    [.], [_] and [:], with an extension of letters, digits, [-], [.] and
    [_], is left unchanged by [sanitizeFilename]; its length is that of the
    date text, two units for each random byte, the extension and the two
    separators. *)
Theorem generateRandomFilename_is_safe (iso : string)
    (random : list Byte.byte) (extension : option string) :
  every (fun c => is_filename_unit c || is_unit 58 c) iso = true ->
  every is_filename_unit (default "mp4" extension) = true ->
  let name := generateRandomFilename iso random extension in
  sanitizeFilename name = name /\
  String.length name =
  (String.length iso + 2 * length random + 2
   + String.length (default "mp4" extension))%nat.
Proof.
  intros Hiso Hext name. subst name. unfold generateRandomFilename.
  assert (Hstamp : every is_filename_unit (getFormattedTimestamp iso) = true).
  { rewrite getFormattedTimestamp_eq.
    apply (replace_first_every _ _ (Ascii.ascii_of_nat 95)); [done|].
    clear -Hiso. induction iso as [|c iso IH]; [done|]. cbn in *.
    apply andb_true_iff in Hiso as [Hc Hiso].
    destruct (is_colon_or_dot c) eqn:Hcd; rewrite ?app_one; cbn;
      rewrite IH by done; [done|].
    apply orb_false_iff in Hcd as [Hcolon _]. rewrite Hcolon in Hc.
    by rewrite orb_false_r in Hc; rewrite Hc. }
  split.
  - apply sanitizeFilename_id.
    rewrite !every_app, Hstamp, toString_hex_every, Hext. done.
  - rewrite !length_app, toString_hex_length.
    rewrite getFormattedTimestamp_eq.
    rewrite (replace_first_length _ (Ascii.ascii_of_nat 95)).
    rewrite (replace_class_length _ (Ascii.ascii_of_nat 45)). cbn. lia.
Qed.

(** *** The transcript cleaner *)

Lemma collapse_loose (in_run : bool) (s : string) :
  loose in_run (collapse_from in_run s) = true.
Proof.
  revert in_run. induction s as [|c s IH]; intros in_run; [done|]. cbn.
  destruct (is_space c) eqn:Hc.
  - destruct in_run; [apply IH|]. cbn. apply IH.
  - cbn. rewrite Hc. apply IH.
Qed.

Lemma trimStart_loose (after_space : bool) (s : string) :
  loose after_space s = true -> loose true (trimStart s) = true.
Proof.
  revert after_space. induction s as [|c s IH]; intros after_space; [done|].
  cbn. destruct (is_space c) eqn:Hc.
  - intros [_ Hs]%andb_true_iff. by apply (IH true).
  - intros Hs. cbn. by rewrite Hc.
Qed.

Lemma trimEnd_spaced (after_space : bool) (s : string) :
  loose after_space s = true ->
  trimEnd s = "" \/ spaced after_space (trimEnd s) = true.
Proof.
  revert after_space. induction s as [|c s IH]; intros after_space;
    [by left|].
  cbn. destruct (is_space c) eqn:Hc.
  - intros [[Hsp Hafter]%andb_true_iff Hs]%andb_true_iff.
    destruct (IH true Hs) as [Hend|Hend].
    + rewrite Hend. by left.
    + destruct (trimEnd s) as [|d rest] eqn:Hrest; [done|].
      right. cbn [spaced]. by rewrite Hc, Hsp, Hafter.
  - intros Hs. right. destruct (IH false Hs) as [Hend|Hend].
    + rewrite Hend. cbn. by rewrite Hc.
    + destruct (trimEnd s) as [|d rest] eqn:Hrest; cbn [spaced];
        by rewrite Hc.
Qed.

(** The transcript holds no whitespace but single spaces between other
    units: no line feed or tab, no space at either end, no two spaces in a
    row. *)
Theorem transcript_is_tidy (srtContent : string) :
  tidy (cleanSubtitleToTranscript srtContent) = true.
Proof.
  unfold cleanSubtitleToTranscript, tidy, trim, collapse.
  set (joined := join " " _).
  pose proof (collapse_loose false joined) as Hloose.
  apply trimStart_loose in Hloose.
  apply trimEnd_spaced in Hloose as [-> | ->]; [done|apply orb_true_r].
Qed.

(** The cleaner, by the lines of its input. *)
Lemma clean_lines (srtContent : string) :
  cleanSubtitleToTranscript srtContent =
  trim (collapse
          (join " "
             (map strip_tags
                (filter keeps (split (Ascii.ascii_of_nat 10) srtContent))))).
Proof. reflexivity. Qed.

Lemma filter_keeps_dropped (line : string) :
  keeps line = false -> filter keeps [line] = [].
Proof.
  intros Hk. rewrite filter_cons, filter_nil.
  destruct (decide (keeps line)) as [Hd|]; [|done].
  rewrite Hk in Hd. done.
Qed.

(** A line the filter drops (a blank line, a cue number, a cue timing)
    leaves no mark on the transcript, wherever it stands: between other
    text, first, or last.  A text of such lines only gives the empty
    transcript. *)
Theorem dropped_lines_leave_no_mark (line : string) :
  every (fun c => negb (Ascii.eqb c (Ascii.ascii_of_nat 10))) line = true ->
  keeps line = false ->
  (forall a b,
     cleanSubtitleToTranscript (a +:+ nl +:+ line +:+ nl +:+ b) =
     cleanSubtitleToTranscript (a +:+ nl +:+ b)) /\
  (forall b,
     cleanSubtitleToTranscript (line +:+ nl +:+ b) =
     cleanSubtitleToTranscript b) /\
  (forall a,
     cleanSubtitleToTranscript (a +:+ nl +:+ line) =
     cleanSubtitleToTranscript a) /\
  cleanSubtitleToTranscript line = "".
Proof.
  intros Hline Hkeeps.
  pose proof (split_none _ _ Hline) as Hsplit.
  pose proof (filter_keeps_dropped _ Hkeeps) as Hdrop.
  assert (Hnl : forall x, nl +:+ x = String (Ascii.ascii_of_nat 10) x)
    by done.
  repeat split; intros; rewrite !clean_lines, ?Hnl, ?split_at_separator, ?Hsplit,
    ?filter_app, ?Hdrop, ?app_nil_r; reflexivity.
Qed.

Lemma strip_tags_outside (a s : string) :
  every (fun c => negb (is_unit 60 c)) a = true ->
  strip_tags_from false (a +:+ s) = a +:+ strip_tags_from false s.
Proof.
  induction a as [|c a IH]; [done|]. cbn.
  intros [Hc Ha]%andb_true_iff. apply negb_true_iff in Hc.
  rewrite !PosixFacts.app_cons. cbn. by rewrite Hc, IH.
Qed.

Lemma strip_tags_inside (t s : string) :
  every (fun c => negb (is_unit 62 c)) t = true ->
  strip_tags_from true (t +:+ String (Ascii.ascii_of_nat 62) s) =
  strip_tags_from false s.
Proof.
  induction t as [|c t IH]; [done|]. cbn.
  intros [Hc Ht]%andb_true_iff. apply negb_true_iff in Hc.
  rewrite PosixFacts.app_cons. cbn. by rewrite Hc, IH.
Qed.

Lemma has_gt_app (t s : string) :
  has_gt (t +:+ String (Ascii.ascii_of_nat 62) s) = true.
Proof.
  induction t as [|c t IH]; [done|]. rewrite PosixFacts.app_cons. cbn.
  rewrite IH. apply orb_true_r.
Qed.

(** Removing tags from a line: text before a tag is kept and the tag,
    from its [<] to the first [>] after it, is dropped; a line without any
    [>] is left as it is, its [<] included. *)
Theorem strip_tags_removes_tags :
  (forall text tag rest,
     every (fun c => negb (is_unit 60 c)) text = true ->
     every (fun c => negb (is_unit 62 c)) tag = true ->
     strip_tags (text +:+ "<" +:+ tag +:+ ">" +:+ rest) =
     text +:+ strip_tags rest) /\
  (forall line, has_gt line = false -> strip_tags line = line).
Proof.
  split.
  - intros text tag rest Htext Htag. unfold strip_tags.
    rewrite strip_tags_outside by done. f_equal.
    change ("<" +:+ tag +:+ ">" +:+ rest)
      with (String (Ascii.ascii_of_nat 60)
              (tag +:+ String (Ascii.ascii_of_nat 62) rest)).
    cbn [strip_tags_from].
    change (is_unit 60 (Ascii.ascii_of_nat 60)) with true.
    rewrite has_gt_app. cbn [andb]. by apply strip_tags_inside.
  - intros line. unfold strip_tags.
    induction line as [|c line IH]; [done|]. cbn.
    intros [Hc Hline]%orb_false_iff. rewrite Hline, andb_false_r.
    by rewrite IH.
Qed.

End UtilsFacts.

(** ** The further statements at work *)

Import MoreScenario.

Lemma selectFormat_unparsable_witness :
  @selectFormat posix "invalid-url" "best" = "bestvideo+bestaudio/best".
Proof.
  refine (proj1 (proj2
    (@selectFormat_unparsable posix "invalid-url" (Some "best") eq_refl))
    eq_refl).
Defined.

Lemma staging_is_not_downloads : staging ≠ "/home/u/Downloads".
Proof. discriminate. Qed.

(** The download leaves [video.webm]: it is moved to the downloads
    directory. *)
Lemma staged_files_are_moved_witness :
  exists σ',
    run webm_staged youtube None None None None start =
    (Return ("Video download process initiated to /home/u/Downloads"
             +:+ ". Check the directory for the downloaded file(s)."), σ') /\
    fs σ' !! staging = None /\
    fs σ' !! "/home/u/Downloads" = Some ["video.webm"].
Proof.
  destruct (@staged_files_are_moved posix webm_staged
              youtube config None None None None start
              {| fs := <[staging := ["video.webm"]]>
                         (<[staging := []]> disk);
                 spawned := 1;
                 trace :=
                   [ Mkdir staging;
                     Spawn "yt-dlp"
                       (buildDownloadArgs youtube
                          (@selectFormat posix youtube "720p")
                          None None None)
                       (Some staging) ] |}
              ["video.webm"] eq_refl eq_refl eq_refl)
    as (σ' & Hrun & Hgone & _).
  - done.
  - apply NoDup_singleton.
  - exact staging_is_not_downloads.
  - exists σ'. split; [exact Hrun|]. split; [exact Hgone|].
    unfold run in *. vm_compute in Hrun. injection Hrun as <-.
    reflexivity.
Defined.

Lemma one_process_without_chapter_witness :
  exists t,
    trace (run always_fails youtube None (Some "00:00:05") None None start).2
    = trace start ++ t /\
    commands t = ["yt-dlp"].
Proof.
  exact (@one_process_without_chapter posix always_fails
           youtube config None (Some "00:00:05") None None start eq_refl).
Defined.

Lemma webm_staged_keeps_staging n command args cwd (fs0 : FS) :
  is_Some (fs0 !! staging) ->
  is_Some (fs_after (@child_process webm_staged n command args cwd fs0)
             !! staging).
Proof.
  intros Hfs. destruct n as [|[|n]]; cbn; [|done..].
  rewrite lookup_insert_eq. eauto.
Qed.

(** Both chapters of the metadata, in order, for the filter [all]. *)
Lemma chapters_split_in_order_witness :
  exists σ' t,
    @splitChapters posix webm_staged youtube staging "all" downloaded_webm
    = (Return tt, σ') /\
    trace σ' = trace downloaded_webm ++ t /\
    ffmpeg_outputs t =
    [ "/home/u/Downloads/temp_yt_dlp_downloads/Talk - Intro.mp4";
      "/home/u/Downloads/temp_yt_dlp_downloads/Talk - Main.mp4" ].
Proof.
  destruct (@chapters_split_in_order posix webm_staged
              youtube staging "all" info downloaded_webm
              PosixFacts.join_not_blank webm_staged_keeps_staging)
    as (σ' & t & Hrun & _ & Htrace & Hout & _).
  - cbn. rewrite lookup_insert_eq. eauto.
  - reflexivity.
  - reflexivity.
  - exists σ', t. split; [exact Hrun|]. split; [exact Htrace|].
    rewrite Hout. reflexivity.
Defined.

(** The output of the first chapter is listed first: it is the input of
    the second trimming run. *)
Lemma chapter_output_taken_as_input_witness :
  exists t,
    trace (@splitChapter posix webm_staged staging "all" info main_chapter
             first_chapter_written).2 = trace first_chapter_written ++ t /\
    ffmpeg_inputs t =
    ["/home/u/Downloads/temp_yt_dlp_downloads/Talk - Intro.mp4"].
Proof.
  destruct (@chapter_output_taken_as_input posix webm_staged staging "all"
              info main_chapter intro_chapter [] ["video.mp4"]
              first_chapter_written PosixFacts.join_not_blank
              (or_introl eq_refl) eq_refl)
    as (t & Htrace & Hin).
  - by intros f Hf%elem_of_nil.
  - exists t. split; [exact Htrace|]. rewrite Hin. reflexivity.
Defined.

Lemma getFormattedTimestamp_keeps_all_witness :
  Utils.getFormattedTimestamp "2024-03-20T12:30:00.000Z" =
  "2024-03-20_12-30-00-000Z".
Proof.
  exact (proj1 (UtilsFacts.getFormattedTimestamp_keeps_all
                  "2024-03-20" "12:30:00.000Z" eq_refl)).
Defined.

Lemma generateRandomFilename_is_safe_witness :
  Utils.sanitizeFilename
    (Utils.generateRandomFilename "2024-03-20T12:30:00.000Z"
       [Byte.xa1; Byte.xb2; Byte.xc3; Byte.x0f] None) =
  "2024-03-20_12-30-00-000Z_a1b2c30f.mp4".
Proof.
  exact (proj1 (UtilsFacts.generateRandomFilename_is_safe
                  "2024-03-20T12:30:00.000Z"
                  [Byte.xa1; Byte.xb2; Byte.xc3; Byte.x0f] None
                  eq_refl eq_refl)).
Defined.

(** A cue timing between two lines of text. *)
Lemma dropped_lines_leave_no_mark_witness :
  Utils.cleanSubtitleToTranscript
    ("Hello" +:+ nl +:+ "00:00:01,000 --> 00:00:02,000" +:+ nl +:+ "world") =
  Utils.cleanSubtitleToTranscript ("Hello" +:+ nl +:+ "world").
Proof.
  exact (proj1 (UtilsFacts.dropped_lines_leave_no_mark
                  "00:00:01,000 --> 00:00:02,000" eq_refl eq_refl)
           "Hello" "world").
Defined.

Lemma strip_tags_removes_tags_witness :
  Utils.strip_tags "Hello <i>world" = "Hello world".
Proof.
  exact (proj1 UtilsFacts.strip_tags_removes_tags "Hello " "i" "world"
           eq_refl eq_refl).
Defined.

(** ** The configuration module *)

Module ConfigFacts.

Import ConfigJs.

Lemma length_substring (n : nat) (s : string) :
  String.length (String.substring 0 n s) = Nat.min n (String.length s).
Proof.
  revert n. induction s as [|c s IH]; intros [|n]; cbn; auto.
Qed.

Lemma length_slice0 (s : string) (end_ : Z) :
  Z.of_nat (String.length (slice0 s end_)) =
  if end_ <? 0 then Z.max (Z.of_nat (String.length s) + end_) 0
  else Z.min end_ (Z.of_nat (String.length s)).
Proof.
  unfold slice0. rewrite length_substring.
  destruct (end_ <? 0) eqn:Hneg; lia.
Qed.

Section ConfigFacts.

Context {platform : Platform} {runtime : Runtime}.

Lemma or_string_not_blank (override : option string) (base : string) :
  base ≠ "" -> or_string override base ≠ "".
Proof.
  intros Hbase. unfold or_string. destruct override as [text|]; [|done].
  by destruct (String.eqb_spec text "").
Qed.

Lemma env_truthy_not_blank (env : gmap string string) name text :
  env_truthy env name = Some text -> text ≠ "".
Proof.
  unfold env_truthy. destruct (env !! name) as [t|]; [|done].
  destruct (String.eqb_spec t ""); [done|]. by intros [= <-].
Qed.

Lemma or_string_env (env : gmap string string) name (base : string) :
  or_string (env_truthy env name) base = default base (env_truthy env name).
Proof.
  unfold or_string. destruct (env_truthy env name) as [text|] eqn:He; [|done].
  apply env_truthy_not_blank in He. by destruct (String.eqb_spec text "").
Qed.

(** What the environment makes of the defaults: the fields of the merged
    configuration that are validated. *)
Lemma merged_fields (env : gmap string string) (envConfig : PartialConfig) :
  loadEnvConfig env = Some envConfig ->
  let config := mergeConfig defaultConfig envConfig in
  maxFilenameLength (file config) =
    or_num (parseInt <$> env_truthy env "YTDLP_MAX_FILENAME_LENGTH") (Num 50)
  /\ downloadsDir (file config) =
       default (path_join os_homedir "Downloads")
         (env_truthy env "YTDLP_DOWNLOADS_DIR")
  /\ tempDirPrefix (file config) =
       default "ytdlp-" (env_truthy env "YTDLP_TEMP_DIR_PREFIX")
  /\ required (tools config) = ["yt-dlp"]
  /\ defaultResolution (download config) =
       match env_truthy env "YTDLP_DEFAULT_RESOLUTION" with
       | Some r =>
           if includes_string ["480p"; "720p"; "1080p"; "best"] r then r
           else "720p"
       | None => "720p"
       end
  /\ defaultAudioFormat (download config) =
       match env_truthy env "YTDLP_DEFAULT_AUDIO_FORMAT" with
       | Some f => if includes_string ["m4a"; "mp3"] f then f else "m4a"
       | None => "m4a"
       end
  /\ defaultSubtitleLanguage (download config) =
       default "en" (env_truthy env "YTDLP_DEFAULT_SUBTITLE_LANG").
Proof.
  unfold loadEnvConfig. intros Hload.
  destruct (match env_truthy env "YTDLP_SANITIZE_ILLEGAL_CHARS" with
            | Some source => _
            | None => _
            end) as [illegal|]; [|done].
  cbn in Hload. injection Hload as <-. cbn zeta.
  unfold mergeConfig. cbn -[env_truthy includes_string].
  rewrite !or_string_env.
  repeat split.
  all: unfold includes_string; cbn [existsb].
  all: destruct (env_truthy env "YTDLP_DEFAULT_RESOLUTION") as [r|] eqn:Hr;
    [apply env_truthy_not_blank, String.eqb_neq in Hr;
     destruct (String.eqb r "480p" || _)|].
  all: destruct (env_truthy env "YTDLP_DEFAULT_AUDIO_FORMAT") as [f|] eqn:Hf;
    [apply env_truthy_not_blank, String.eqb_neq in Hf;
     destruct (String.eqb f "m4a" || _)|].
  all: destruct (env_truthy env "YTDLP_DEFAULT_SUBTITLE_LANG") as [l|] eqn:Hl;
    [apply env_truthy_not_blank, String.eqb_neq in Hl|].
  all: cbn; rewrite ?Hr, ?Hf, ?Hl; reflexivity.
Qed.

Lemma validateConfig_length (config : Config) :
  validateConfig config =
    Some (Error "maxFilenameLength must be at least 5") <->
  num_lt (maxFilenameLength (file config)) 5 = true.
Proof.
  unfold validateConfig. destruct (num_lt _ 5); [done|].
  split; [|done].
  repeat (match goal with |- context [if ?b then _ else _] => destruct b end);
    done.
Qed.

Lemma or_num_small (override : option num) :
  num_lt (or_num override (Num 50)) 5 = true <->
  exists n, override = Some n /\
    (n = NegInfinity \/ exists z, n = Num z /\ z ≠ 0 /\ z < 5).
Proof.
  unfold or_num. destruct override as [[|z| |]|]; cbn.
  - split; [done|]. intros (n & [= <-] & [|(z & ? & _)]); done.
  - destruct (Z.eqb_spec z 0) as [->|Hz]; cbn.
    + split; [done|]. intros (n & [= <-] & [|(z & [= <-] & ? & _)]); done.
    + rewrite Z.ltb_lt. split.
      * intros Hlt. exists (Num z). split; [done|]. right. by exists z.
      * by intros (n & [= <-] & [|(z' & [= <-] & _ & ?)]).
  - split; [done|]. intros (n & [= <-] & [|(z & ? & _)]); done.
  - split; [|done]. intros _. exists NegInfinity. by split; [|left].
  - split; [done|]. by intros (n & ? & _).
Qed.

Lemma resolution_of_env (chosen : option string) :
  includes_string ["480p"; "720p"; "1080p"; "best"]
    match chosen with
    | Some r =>
        if includes_string ["480p"; "720p"; "1080p"; "best"] r then r
        else "720p"
    | None => "720p"
    end = true.
Proof.
  destruct chosen as [r|]; [|done].
  by destruct (includes_string _ r) eqn:Hr.
Qed.

Lemma audio_of_env (chosen : option string) :
  includes_string ["m4a"; "mp3"]
    match chosen with
    | Some f => if includes_string ["m4a"; "mp3"] f then f else "m4a"
    | None => "m4a"
    end = true.
Proof.
  destruct chosen as [f|]; [|done].
  by destruct (includes_string _ f) eqn:Hf.
Qed.

Lemma default_not_blank (env : gmap string string) name (base : string) :
  base ≠ "" -> default base (env_truthy env name) ≠ "".
Proof.
  intros Hbase. destruct (env_truthy env name) as [text|] eqn:He; [|done].
  by apply env_truthy_not_blank in He.
Qed.

(** The errors left to a configuration whose directory, prefix,
    resolution and audio format are in order. *)
Lemma validateConfig_rest (config : Config) (error : exn) :
  downloadsDir (file config) ≠ "" ->
  tempDirPrefix (file config) ≠ "" ->
  includes_string ["480p"; "720p"; "1080p"; "best"]
    (defaultResolution (download config)) = true ->
  includes_string ["m4a"; "mp3"]
    (defaultAudioFormat (download config)) = true ->
  validateConfig config = Some error ->
  error = Error "maxFilenameLength must be at least 5"
  \/ error = Error "Invalid defaultSubtitleLanguage".
Proof.
  intros Hdir Hprefix Hres Haudio. unfold validateConfig.
  rewrite Hres, Haudio.
  destruct (num_lt _ 5); [intros [= <-]; by left|].
  destruct (String.eqb_spec (downloadsDir (file config)) ""); [done|].
  destruct (String.eqb_spec (tempDirPrefix (file config)) ""); [done|].
  cbn. destruct (is_language_tag _); cbn; [done|]. intros [= <-]. by right.
Qed.

(** Of the six errors of [validateConfig] and the error of [new RegExp],
    [loadConfig] can throw three: a value of the environment that
    [validateConfig] would reject for the directory, the prefix, the
    resolution or the audio format never reaches it. *)
Theorem loadConfig_errors (env : gmap string string) (error : exn) :
  path_join os_homedir "Downloads" ≠ "" ->
  loadConfig env = Throw error ->
  (exists message, error = SyntaxError message)
  \/ error = Error "maxFilenameLength must be at least 5"
  \/ error = Error "Invalid defaultSubtitleLanguage".
Proof.
  intros Hhome. unfold loadConfig.
  destruct (loadEnvConfig env) as [envConfig|] eqn:Hload.
  2: { intros [= <-]. left. by eexists. }
  destruct (merged_fields env envConfig Hload)
    as (_ & Hdir & Hprefix & _ & Hres & Haudio & _).
  cbn zeta. destruct (validateConfig _) as [e|] eqn:Hvalid; [|done].
  intros [= <-]. right. revert Hvalid. apply validateConfig_rest.
  - rewrite Hdir. by apply default_not_blank.
  - rewrite Hprefix. by apply default_not_blank.
  - rewrite Hres. apply resolution_of_env.
  - rewrite Haudio. apply audio_of_env.
Qed.

(** [loadConfig] rejects the length exactly when the environment gives a
    text that [parseInt] reads as a number below 5 other than 0: a length
    of 0, like a text that is no number, is replaced by 50 and passes. *)
Theorem loadConfig_length_error (env : gmap string string) :
  loadConfig env = Throw (Error "maxFilenameLength must be at least 5") <->
  loadEnvConfig env ≠ None /\
  exists text,
    env_truthy env "YTDLP_MAX_FILENAME_LENGTH" = Some text /\
    (parseInt text = NegInfinity \/
     exists z, parseInt text = Num z /\ z ≠ 0 /\ z < 5).
Proof.
  unfold loadConfig.
  destruct (loadEnvConfig env) as [envConfig|] eqn:Hload.
  2: { split; [done|]. by intros [? _]. }
  destruct (merged_fields env envConfig Hload) as (Hlength & _).
  cbn zeta.
  transitivity (validateConfig (mergeConfig defaultConfig envConfig) =
                Some (Error "maxFilenameLength must be at least 5")).
  { destruct (validateConfig _); split; congruence. }
  rewrite validateConfig_length, Hlength, or_num_small.
  split.
  - intros (n & Hn & Hsmall). split; [done|].
    destruct (env_truthy env "YTDLP_MAX_FILENAME_LENGTH") as [text|];
      [|done].
    exists text. split; [done|]. cbn in Hn. by injection Hn as <-.
  - intros (_ & text & -> & Hsmall). by exists (parseInt text).
Qed.

(** What [loadConfig] returns: the length is the number of the
    environment, or 50 when that is unset, no number or 0, and it is at
    least 5; the directory, the prefix and the language are those of the
    environment when set and not empty; the resolution and the audio
    format are those of the environment when they are among the known
    ones; everything else is the default. *)
Theorem loadConfig_fields (env : gmap string string) (config : Config) :
  loadConfig env = Return config ->
  maxFilenameLength (file config) =
    or_num (parseInt <$> env_truthy env "YTDLP_MAX_FILENAME_LENGTH") (Num 50)
  /\ (maxFilenameLength (file config) = PosInfinity \/
      exists z, maxFilenameLength (file config) = Num z /\ 5 <= z)
  /\ downloadsDir (file config) =
       default (path_join os_homedir "Downloads")
         (env_truthy env "YTDLP_DOWNLOADS_DIR")
  /\ tempDirPrefix (file config) =
       default "ytdlp-" (env_truthy env "YTDLP_TEMP_DIR_PREFIX")
  /\ required (tools config) = ["yt-dlp"]
  /\ defaultResolution (download config) =
       match env_truthy env "YTDLP_DEFAULT_RESOLUTION" with
       | Some r =>
           if includes_string ["480p"; "720p"; "1080p"; "best"] r then r
           else "720p"
       | None => "720p"
       end
  /\ defaultAudioFormat (download config) =
       match env_truthy env "YTDLP_DEFAULT_AUDIO_FORMAT" with
       | Some f => if includes_string ["m4a"; "mp3"] f then f else "m4a"
       | None => "m4a"
       end
  /\ defaultSubtitleLanguage (download config) =
       default "en" (env_truthy env "YTDLP_DEFAULT_SUBTITLE_LANG")
  /\ is_language_tag (defaultSubtitleLanguage (download config)) = true.
Proof.
  unfold loadConfig.
  destruct (loadEnvConfig env) as [envConfig|] eqn:Hload; [|done].
  pose proof (merged_fields env envConfig Hload) as Hfields.
  cbn zeta in *. destruct (validateConfig _) eqn:Hvalid; [done|].
  intros [= <-].
  destruct Hfields as (Hlength & Hdir & Hprefix & Htools & Hres & Haudio
                       & Hlang).
  repeat split; try assumption.
  - revert Hvalid. unfold validateConfig.
    destruct (maxFilenameLength _) as [|z| |] eqn:Hmax; cbn.
    + exfalso. revert Hlength. unfold or_num.
      destruct (_ <$> _) as [n|]; [|done].
      by destruct n as [|z| |]; cbn; [| destruct (z =? 0) | |].
    + destruct (Z.ltb_spec z 5); [done|]. intros _. right. by exists z.
    + by left.
    + done.
  - revert Hvalid. unfold validateConfig.
    destruct (is_language_tag _); [done|]. cbn [negb].
    repeat (match goal with
            | |- context [if ?b then _ else _] => destruct b
            end); done.
Qed.

(** The length of what [sanitizeFilename] returns, in the three cases of
    lines 151-155. *)
Lemma sanitizeFilename_length (filename : string) (config : File) (z : Z) :
  maxFilenameLength config = Num z ->
  let safe := safe_name filename config in
  let over := Z.of_nat (String.length (path_extname safe)) +
              Z.of_nat (String.length (truncateSuffix (sanitize config))) in
  Z.of_nat (String.length (sanitizeFilename filename config)) =
    if z <? Z.of_nat (String.length safe) then
      if z <? over then Z.max (Z.of_nat (String.length safe) + z) over
      else z
    else Z.of_nat (String.length safe).
Proof.
  intros Hmax safe over. unfold sanitizeFilename. fold (safe_name filename config).
  fold safe. rewrite Hmax. cbn [length_gt num_minus slice0_num].
  destruct (Z.ltb_spec z (Z.of_nat (String.length safe))); [|done].
  rewrite !UtilsFacts.length_app, !Nat2Z.inj_add, length_slice0. subst over.
  destruct (Z.ltb_spec z (Z.of_nat (String.length (path_extname safe)) +
     Z.of_nat (String.length (truncateSuffix (sanitize config)))));
    destruct (Z.ltb_spec (z - Z.of_nat (String.length (path_extname safe)) -
     Z.of_nat (String.length (truncateSuffix (sanitize config)))) 0); lia.
Qed.

(** When the limit leaves room for the suffix and the extension, the name
    returned is the safe name cut to the limit: it has the length of the
    safe name or of the limit, whichever is less. *)
Theorem sanitizeFilename_within_limit
    (filename : string) (config : File) (z : Z) :
  maxFilenameLength config = Num z ->
  Z.of_nat (String.length (path_extname (safe_name filename config))) +
  Z.of_nat (String.length (truncateSuffix (sanitize config))) <= z ->
  Z.of_nat (String.length (sanitizeFilename filename config)) =
  Z.min (Z.of_nat (String.length (safe_name filename config))) z.
Proof.
  intros Hmax Hroom. rewrite (sanitizeFilename_length _ _ z Hmax).
  destruct (Z.ltb_spec z (Z.of_nat (String.length (safe_name filename config))));
    [|lia].
  match goal with |- context [if ?b then _ else _] =>
    destruct (Z.ltb_spec z
      (Z.of_nat (String.length (path_extname (safe_name filename config))) +
       Z.of_nat (String.length (truncateSuffix (sanitize config)))))
  end; lia.
Qed.

(** When the limit is shorter than the suffix and the extension together,
    a name over the limit is not cut to it: the cut is counted from the
    end of the name, and what is returned is longer than the limit and,
    for a limit that is not negative, at least as long as the name was. *)
Theorem sanitizeFilename_over_limit
    (filename : string) (config : File) (z : Z) :
  maxFilenameLength config = Num z ->
  z < Z.of_nat (String.length (safe_name filename config)) ->
  z < Z.of_nat (String.length (path_extname (safe_name filename config))) +
      Z.of_nat (String.length (truncateSuffix (sanitize config))) ->
  Z.of_nat (String.length (sanitizeFilename filename config)) =
  Z.max (Z.of_nat (String.length (safe_name filename config)) + z)
    (Z.of_nat (String.length (path_extname (safe_name filename config))) +
     Z.of_nat (String.length (truncateSuffix (sanitize config)))).
Proof.
  intros Hmax Hlong Hshort. rewrite (sanitizeFilename_length _ _ z Hmax).
  destruct (Z.ltb_spec z (Z.of_nat (String.length (safe_name filename config))));
    [|lia].
  match goal with |- context [if ?b then _ else _] =>
    destruct (Z.ltb_spec z
      (Z.of_nat (String.length (path_extname (safe_name filename config))) +
       Z.of_nat (String.length (truncateSuffix (sanitize config)))))
  end; lia.
Qed.

End ConfigFacts.

End ConfigFacts.

(** The environment [small_env] asks for names of at most 3 units. *)
Lemma loadConfig_errors_witness :
  ConfigJs.loadConfig (platform := posix) (runtime := ConfigScenario.classes)
    ConfigScenario.small_env =
  Throw (Error "maxFilenameLength must be at least 5")
  /\ ((exists message,
         Error "maxFilenameLength must be at least 5" = SyntaxError message)
      \/ Error "maxFilenameLength must be at least 5" =
         Error "maxFilenameLength must be at least 5"
      \/ Error "maxFilenameLength must be at least 5" =
         Error "Invalid defaultSubtitleLanguage").
Proof.
  split; [vm_compute; reflexivity|].
  apply (ConfigFacts.loadConfig_errors (platform := posix)
           (runtime := ConfigScenario.classes) ConfigScenario.small_env).
  - apply PosixFacts.join_not_blank.
  - vm_compute. reflexivity.
Defined.

Lemma loadConfig_length_error_witness :
  ConfigJs.loadConfig (platform := posix) (runtime := ConfigScenario.classes)
    ConfigScenario.small_env =
  Throw (Error "maxFilenameLength must be at least 5").
Proof.
  apply (ConfigFacts.loadConfig_length_error (platform := posix)
           (runtime := ConfigScenario.classes) ConfigScenario.small_env).
  split; [vm_compute; discriminate|].
  exists "3". split; [vm_compute; reflexivity|].
  right. exists 3. split; [vm_compute; reflexivity|]. split; [discriminate|].
  reflexivity.
Defined.

(** The environment [zero_env] asks for a length of 0, a directory and a
    resolution that is not known: the length and the resolution are the
    defaults. *)
Lemma loadConfig_fields_witness :
  exists config,
    ConfigJs.loadConfig (platform := posix)
      (runtime := ConfigScenario.classes) ConfigScenario.zero_env =
    Return config
    /\ ConfigJs.maxFilenameLength (ConfigJs.file config) = ConfigJs.Num 50
    /\ ConfigJs.downloadsDir (ConfigJs.file config) = "/srv/media"
    /\ ConfigJs.defaultResolution (ConfigJs.download config) = "720p".
Proof.
  eexists. split; [reflexivity|].
  pose proof (ConfigFacts.loadConfig_fields (platform := posix)
                (runtime := ConfigScenario.classes) ConfigScenario.zero_env
                _ eq_refl)
    as (Hlength & _ & Hdir & _ & _ & Hres & _).
  split; [|split].
  - etransitivity; [exact Hlength|]. vm_compute. reflexivity.
  - etransitivity; [exact Hdir|]. vm_compute. reflexivity.
  - etransitivity; [exact Hres|]. vm_compute. reflexivity.
Defined.

(** A name of 31 units under a limit of 12. *)
Lemma sanitizeFilename_within_limit_witness :
  Z.of_nat (String.length
              (ConfigJs.sanitizeFilename "a-very-long-name-of-a-video.mp4"
                 (ConfigScenario.file_config 12))) = 12.
Proof.
  rewrite (ConfigFacts.sanitizeFilename_within_limit
             (runtime := ConfigScenario.classes)
             "a-very-long-name-of-a-video.mp4"
             (ConfigScenario.file_config 12) 12 eq_refl).
  - vm_compute. reflexivity.
  - vm_compute. discriminate.
Defined.

(** A name of 9 units under a limit of 5 comes back with 14. *)
Lemma sanitizeFilename_over_limit_witness :
  ConfigJs.sanitizeFilename "video.mp4" (ConfigScenario.file_config 5) =
  "video.m....mp4"
  /\ Z.of_nat (String.length
                 (ConfigJs.sanitizeFilename "video.mp4"
                    (ConfigScenario.file_config 5))) = 14.
Proof.
  split; [vm_compute; reflexivity|].
  rewrite (ConfigFacts.sanitizeFilename_over_limit
             (runtime := ConfigScenario.classes)
             "video.mp4" (ConfigScenario.file_config 5) 5 eq_refl).
  - vm_compute. reflexivity.
  - vm_compute. reflexivity.
  - vm_compute. reflexivity.
Defined.
